(** * graph_generator.py: table classifier and graph upsert pipeline

    A shallow embedding of [src/graph_generator.py]:
    - [Py]: the Python built-ins the script relies on ([str.split],
      [str.replace], [str], truthiness, insertion-ordered [dict]);
    - [DataProcessor.generate_sector_dict]: the table classifier;
    - [Neo4jLoader.load_dataframe]: query construction and the upsert
      semantics of the Cypher text it sends;
    - the [__main__] block: the per-table loop under [try]/[finally]. *)

From Stdlib Require Import List String Ascii ZArith Bool Lia Arith Permutation.
Import ListNotations.
Open Scope list_scope.
Open Scope string_scope.

Set Implicit Arguments.

(* ================================================================== *)
(** ** Python built-ins *)

Module Py.

(** [s.split(sep)] for a one-character separator: never empty, the
    empty string splits to one empty segment. *)
Fixpoint split (sep : ascii) (s : string) : list string :=
  match s with
  | EmptyString => [EmptyString]
  | String c rest =>
      if Ascii.eqb c sep then EmptyString :: split sep rest
      else match split sep rest with
           | [] => [String c EmptyString]
           | seg :: segs => String c seg :: segs
           end
  end.

(** [sep.join(parts)]; only used to state facts about [split]. *)
Fixpoint join (sep : ascii) (parts : list string) : string :=
  match parts with
  | [] => EmptyString
  | [p] => p
  | p :: ps => p ++ String sep (join sep ps)
  end.

(** [c in s] for a character. *)
Fixpoint mem (c : ascii) (s : string) : bool :=
  match s with
  | EmptyString => false
  | String d rest => Ascii.eqb d c || mem c rest
  end.

(** [s.replace(old, new)] for a one-character [old]. *)
Fixpoint replace (old : ascii) (new : string) (s : string) : string :=
  match s with
  | EmptyString => EmptyString
  | String c rest =>
      if Ascii.eqb c old then new ++ replace old new rest
      else String c (replace old new rest)
  end.

(** [str(x)] where [x] is [None] or already a [str]. *)
Definition str (x : option string) : string :=
  match x with
  | None => "None"
  | Some s => s
  end.

(** Truthiness of a [str]. *)
Definition truthy (s : string) : bool :=
  match s with
  | EmptyString => false
  | String _ _ => true
  end.

(** An insertion-ordered [dict] with [str] keys: assignment to an
    existing key keeps its position, a new key goes last. *)
Section Dict.
Variable V : Type.

Definition dict := list (string * V).

Fixpoint get (k : string) (d : dict) : option V :=
  match d with
  | [] => None
  | (k', v) :: d' => if String.eqb k k' then Some v else get k d'
  end.

Fixpoint set (k : string) (v : V) (d : dict) : dict :=
  match d with
  | [] => [(k, v)]
  | (k', v') :: d' =>
      if String.eqb k k' then (k', v) :: d' else (k', v') :: set k v d'
  end.

Definition keys (d : dict) : list string := map fst d.

End Dict.

End Py.

Definition underscore : ascii := "_"%char.
Definition quote : ascii := "'"%char.
Definition backslash : ascii := "\"%char.

(* ================================================================== *)
(** ** DataProcessor.generate_sector_dict *)

(** The assignment in the loop body:
    [sector_dict[parts[0]] = parts[1] if len(parts) > 1 else None]. *)
Definition sector_entry (key : string) : string * option string :=
  let parts := Py.split underscore key in
  (nth 0 parts EmptyString,
   if Nat.ltb 1 (List.length parts) then Some (nth 1 parts EmptyString) else None).

Definition classify_step (sector_dict : Py.dict (option string)) (key : string)
  : Py.dict (option string) :=
  let (sector, sub_sector) := sector_entry key in
  Py.set sector sub_sector sector_dict.

(** [generate_sector_dict] on a fresh [DataProcessor] ([sector_dict = {}]),
    iterating [data_dict.keys()] in order. *)
Definition generate_sector_dict (names : list string)
  : Py.dict (option string) :=
  fold_left classify_step names [].

(* ================================================================== *)
(** ** Rows, nodes and the graph store *)

(** A finite float written as mantissa and decimal exponent.  The
    not-a-number and infinite values are outside this model, and two
    floats are told apart by their writing: statements that compare
    keys are made for text and integer keys. *)
Definition float := (Z * Z)%type.

(** A cell of a record as the driver hands it to the store: null,
    an integer, a finite float or a text.  Booleans, timestamps and
    the not-a-number of an empty cell are not modelled; no statement
    below speaks of a frame that holds one. *)
Inductive value :=
| VNull
| VInt (z : Z)
| VFloat (f : float)
| VStr (s : string).

Definition row := Py.dict value.

Record DataFrame := { columns : list string; data : list (list value) }.

(** [df.to_dict('records')]: one dict per line of the frame. *)
Definition record_of (cols : list string) (cells : list value) : row :=
  fold_left (fun d kv => Py.set (fst kv) (snd kv) d) (combine cols cells) [].

Definition to_dict_records (df : DataFrame) : list row :=
  map (record_of (columns df)) (data df).

(** Nodes are identified by label and key attributes. *)
Inductive node :=
| State (name : value)
| EDD (name : value)
| County (name fips_id : value)
| Sector (name : string)
| Sub_Sector (name : string)
| Metrics (metric_name : string) (year : Z) (county : value).

Inductive rel := HAS_EDD | HAS_COUNTY | HAS_SECTOR | HAS_SUB_SECTOR | REPORTS.

Definition edge := (node * rel * node)%type.

Definition value_eq_dec (a b : value) : {a = b} + {a <> b}.
Proof.
  decide equality; try apply Z.eq_dec; try apply string_dec.
  destruct f as [m e], f0 as [m' e'].
  destruct (Z.eq_dec m m'), (Z.eq_dec e e'); subst;
    first [ left; reflexivity | right; congruence ].
Defined.

Definition node_eq_dec (a b : node) : {a = b} + {a <> b}.
Proof.
  decide equality;
    try apply value_eq_dec; try apply Z.eq_dec; try apply string_dec.
Defined.

Definition rel_eq_dec (a b : rel) : {a = b} + {a <> b}.
Proof. decide equality. Defined.

Definition edge_eq_dec (a b : edge) : {a = b} + {a <> b}.
Proof.
  decide equality; try apply node_eq_dec.
  decide equality; try apply node_eq_dec; apply rel_eq_dec.
Defined.

(** The store: the nodes, the [value] property of Metrics nodes, and
    the relationships. *)
Record graph := {
  nodes : list node;
  values : list (node * float);
  edges : list edge
}.

Definition empty_graph : graph := {| nodes := []; values := []; edges := [] |}.

Fixpoint metric_value_in (vs : list (node * float)) (n : node) : option float :=
  match vs with
  | [] => None
  | (m, f) :: vs' => if node_eq_dec n m then Some f else metric_value_in vs' n
  end.

Definition metric_value (g : graph) (n : node) : option float :=
  metric_value_in (values g) n.

(** The two upserts the query uses.  [MERGE] of a node pattern finds
    the node by label and key or creates it, and [ON CREATE SET] only
    runs in the second case; setting a property to null stores
    nothing.  [MERGE] of a relationship between two bound nodes finds
    or creates the relationship. *)
Inductive op :=
| MergeNode (n : node) (on_create : option float)
| MergeEdge (e : edge).

Definition has_node (g : graph) (n : node) : bool :=
  if in_dec node_eq_dec n (nodes g) then true else false.

Definition has_edge (g : graph) (e : edge) : bool :=
  if in_dec edge_eq_dec e (edges g) then true else false.

Definition apply_op (g : graph) (o : op) : graph :=
  match o with
  | MergeNode n on_create =>
      if has_node g n then g
      else {| nodes := (nodes g ++ [n])%list;
              values := match on_create with
                        | Some f => (n, f) :: values g
                        | None => values g
                        end;
              edges := edges g |}
  | MergeEdge e =>
      if has_edge g e then g
      else {| nodes := nodes g; values := values g;
              edges := (edges g ++ [e])%list |}
  end.

Definition run_ops (ops : list op) (g : graph) : graph :=
  fold_left apply_op ops g.

(* ================================================================== *)
(** ** The query text built by Neo4jLoader.load_dataframe *)

Definition nl : string := String (ascii_of_nat 10) EmptyString.

Definition text_head : string :=
  nl ++
  "        UNWIND $rows AS row" ++ nl ++
  "        MERGE (state:State {name: row.State})" ++ nl ++
  "        MERGE (region:EDD {name: row.Region})" ++ nl ++
  "        MERGE (state)-[:HAS_EDD]->(region)" ++ nl ++
  "        MERGE (county:County {name: row.County, fips_id: row.county_id})" ++ nl ++
  "        MERGE (region)-[:HAS_COUNTY]->(county)" ++ nl ++
  "        MERGE (sector:Sector {name: '".

Definition text_after_sector : string :=
  "})" ++ nl ++
  "        MERGE (county)-[:HAS_SECTOR]->(sector)" ++ nl ++
  "        // Check if subsector_name is provided and create subsector" ++ nl ++
  "        WITH row, sector" ++ nl ++
  "        ".

Definition text_sub_open : string := "MERGE (subsector:Sub_Sector {name: '".

Definition text_sub_close : string :=
  "}) MERGE (sector)-[:HAS_SUB_SECTOR]->(subsector)".

Definition text_with : string := nl ++ "        WITH row, sector, ".

Definition text_tail : string :=
  " AS subsector" ++ nl ++
  "        UNWIND keys(row) AS columnName" ++ nl ++
  "        WITH row, subsector, columnName" ++ nl ++
  "        WHERE NOT columnName IN ['State', 'Region', 'County', 'Year']  // Exclude non-metric columns" ++ nl ++
  "        MERGE (metric:Metrics {metric_name: columnName, year: toInteger(row.Year), county:row.County})" ++ nl ++
  "        ON CREATE SET metric.value = toFloat(row[columnName])  // Set metric value if created" ++ nl ++
  "        MERGE (subsector)-[:REPORTS]->(metric);" ++ nl ++
  "        ".

Definition quote_s : string := String quote EmptyString.

(** The f-string of [load_dataframe], given the two names after
    [str(...).replace(...)]. *)
Definition query_text (sub_sector_name sector_name : string) : string :=
  text_head ++ sector_name ++ quote_s ++ text_after_sector ++
  (if Py.truthy sub_sector_name
   then text_sub_open ++ sub_sector_name ++ quote_s ++ text_sub_close
   else "") ++
  text_with ++
  (if Py.truthy sub_sector_name then "subsector" else "NULL") ++
  text_tail.

(** The replacement the source applies to both names: each quote
    becomes a backslash followed by a quote. *)
Definition escape (s : string) : string :=
  Py.replace quote (String backslash quote_s) s.

Section Loader.

(** [session.run(query, rows=rows)] inside [with driver.session()]:
    the store either commits a new graph or raises. *)
Variable E : Type.
Variable session_run : string -> list row -> graph -> E + graph.

Definition load_dataframe (df : DataFrame)
           (sub_sector_name sector_name : option string) (g : graph)
  : E + graph :=
  let sub_sector_name := escape (Py.str sub_sector_name) in
  let sector_name := escape (Py.str sector_name) in
  let query := query_text sub_sector_name sector_name in
  let rows := to_dict_records df in
  session_run query rows g.

End Loader.

(* ================================================================== *)
(** ** How the store reads the query *)

Module Cypher.

(** Escape sequences of a quoted string literal. *)
Definition unescape (c : ascii) : option ascii :=
  if Ascii.eqb c backslash then Some backslash
  else if Ascii.eqb c quote then Some quote
  else if Ascii.eqb c (ascii_of_nat 34) then Some (ascii_of_nat 34)
  else if Ascii.eqb c "t"%char then Some (ascii_of_nat 9)
  else if Ascii.eqb c "n"%char then Some (ascii_of_nat 10)
  else if Ascii.eqb c "r"%char then Some (ascii_of_nat 13)
  else if Ascii.eqb c "b"%char then Some (ascii_of_nat 8)
  else if Ascii.eqb c "f"%char then Some (ascii_of_nat 12)
  else None.

(** Reads a single-quoted literal whose opening quote has been
    consumed: the decoded characters up to the first quote that is
    not escaped, and the text after that quote. *)
Fixpoint read_literal (s : string) : option (string * string) :=
  match s with
  | EmptyString => None
  | String c rest =>
      if Ascii.eqb c quote then Some (EmptyString, rest)
      else if Ascii.eqb c backslash then
        match rest with
        | EmptyString => None
        | String d rest' =>
            match unescape d, read_literal rest' with
            | Some x, Some (v, tl) => Some (String x v, tl)
            | _, _ => None
            end
        end
      else
        match read_literal rest with
        | Some (v, tl) => Some (String c v, tl)
        | None => None
        end
  end.

Fixpoint strip_prefix (p s : string) : option string :=
  match p, s with
  | EmptyString, _ => Some s
  | String a p', String b s' =>
      if Ascii.eqb a b then strip_prefix p' s' else None
  | String _ _, EmptyString => None
  end.

(** What the text asks for once read: the key of the Sector node
    and, when the Sub_Sector clause is there, the key of that node,
    which is then the node bound to [subsector]. *)
Record query := { q_sector : string; q_subsector : option string }.

Definition expect (p : string) (s : option string) : option string :=
  match s with
  | Some s => strip_prefix p s
  | None => None
  end.

Definition finish (sector : string) (sub : option string)
           (s : option string) : option query :=
  match s with
  | Some s =>
      if String.eqb s text_tail
      then Some {| q_sector := sector; q_subsector := sub |}
      else None
  | None => None
  end.

(** The two shapes [query_text] can take; any other text is not the
    query the loader means to send.  Names without backslash always
    give one of the two shapes. *)
Definition parse_query (text : string) : option query :=
  match expect text_head (Some text) with
  | None => None
  | Some s1 =>
      match read_literal s1 with
      | None => None
      | Some (sector, s2) =>
          match expect text_after_sector (Some s2) with
          | None => None
          | Some s3 =>
              match strip_prefix text_sub_open s3 with
              | Some s4 =>
                  match read_literal s4 with
                  | None => None
                  | Some (sub, s5) =>
                      finish sector (Some sub)
                        (expect "subsector"
                           (expect text_with
                              (expect text_sub_close (Some s5))))
                  end
              | None =>
                  finish sector None
                    (expect "NULL" (expect text_with (Some s3)))
              end
          end
      end
  end.

(** What the store raises: the text is not the query, a [MERGE]
    pattern has a null property, or a relationship is merged from a
    variable bound to null. *)
Inductive error :=
| Malformed
| NullProperty (label key : string)
| NullNode (variable : string).

(** The list of the [WHERE] clause. *)
Definition reserved : list string := ["State"; "Region"; "County"; "Year"].

Definition is_reserved (c : string) : bool :=
  if in_dec string_dec c reserved then true else false.

(** [row.k] and [row[k]]: null when the key is absent. *)
Definition prop (r : row) (k : string) : value :=
  match Py.get k r with
  | Some v => v
  | None => VNull
  end.

(** A property in a [MERGE] pattern must not be null. *)
Definition key_of (label key : string) (v : value) : error + value :=
  match v with
  | VNull => inl (NullProperty label key)
  | _ => inr v
  end.

(** [toInteger] of a float drops the fraction. *)
Definition truncate (f : float) : Z :=
  let (m, e) := f in
  if (0 <=? e)%Z then (m * 10 ^ e)%Z else Z.quot m (10 ^ (- e)).

(** The clauses up to the second [WITH]: the hierarchy above the
    metrics, with the Sub_Sector part when the text has it. *)
Definition hierarchy_ops (qu : query)
           (state_name region_name county_name fips_id : value) : list op :=
  let state := State state_name in
  let region := EDD region_name in
  let county := County county_name fips_id in
  let sector := Sector (q_sector qu) in
  ([MergeNode state None;
    MergeNode region None;
    MergeEdge (state, HAS_EDD, region);
    MergeNode county None;
    MergeEdge (region, HAS_COUNTY, county);
    MergeNode sector None;
    MergeEdge (county, HAS_SECTOR, sector)]
   ++ match q_subsector qu with
      | Some name =>
          [MergeNode (Sub_Sector name) None;
           MergeEdge (sector, HAS_SUB_SECTOR, Sub_Sector name)]
      | None => []
      end)%list.

(** What [subsector] is bound to after the second [WITH]: the
    Sub_Sector node, or null. *)
Definition subsector (qu : query) : option node :=
  match q_subsector qu with
  | Some name => Some (Sub_Sector name)
  | None => None
  end.

Section Semantics.

(** How the store reads a number out of a string, for
    [toInteger] and for [toFloat]: null when it cannot.  Which
    spellings it accepts is left open. *)
Variable parse_int : string -> option Z.
Variable parse_float : string -> option float.

Definition toInteger (v : value) : option Z :=
  match v with
  | VNull => None
  | VInt z => Some z
  | VFloat f => Some (truncate f)
  | VStr s => parse_int s
  end.

Definition toFloat (v : value) : option float :=
  match v with
  | VNull => None
  | VInt z => Some (z, 0%Z)
  | VFloat f => Some f
  | VStr s => parse_float s
  end.

(** The last three clauses, for one [columnName] that passed the
    [WHERE].  The node pattern needs a year that is not null; the
    relationship pattern needs [subsector] bound to a node. *)
Definition metric_ops (r : row) (county : value) (anchor : option node)
           (columnName : string) : error + list op :=
  match toInteger (prop r "Year") with
  | None => inl (NullProperty "Metrics" "year")
  | Some year =>
      let metric := Metrics columnName year county in
      match anchor with
      | None => inl (NullNode "subsector")
      | Some a =>
          inr [MergeNode metric (toFloat (prop r columnName));
               MergeEdge (a, REPORTS, metric)]
      end
  end.

Fixpoint collect (A B : Type) (f : A -> error + list B) (l : list A)
  : error + list B :=
  match l with
  | [] => inr []
  | a :: l' =>
      match f a with
      | inl e => inl e
      | inr x =>
          match collect f l' with
          | inl e => inl e
          | inr xs => inr (x ++ xs)%list
          end
      end
  end.

Definition metric_columns (r : row) : list string :=
  filter (fun c => negb (is_reserved c)) (Py.keys r).

(** The upserts one row of [$rows] goes through, clause by clause. *)
Definition row_ops (qu : query) (r : row) : error + list op :=
  match key_of "State" "name" (prop r "State") with
  | inl e => inl e
  | inr state_name =>
  match key_of "EDD" "name" (prop r "Region") with
  | inl e => inl e
  | inr region_name =>
  match key_of "County" "name" (prop r "County") with
  | inl e => inl e
  | inr county_name =>
  match key_of "County" "fips_id" (prop r "county_id") with
  | inl e => inl e
  | inr fips_id =>
      match collect (metric_ops r county_name (subsector qu))
                    (metric_columns r) with
      | inl e => inl e
      | inr ms =>
          inr (hierarchy_ops qu state_name region_name county_name fips_id
               ++ ms)%list
      end
  end end end end.

Definition batch_ops (qu : query) (rows : list row) : error + list op :=
  collect (row_ops qu) rows.

(** One auto-commit transaction: every row goes through or the
    store is left as it was and the error is raised.  A text outside
    the two shapes is answered with [Malformed] and not interpreted:
    that is what the store does with a text that is no query, and it
    says nothing of a text that a name with a backslash turned into
    another query.  What a load does to the store is therefore stated
    for names without backslash. *)
Definition session_run (text : string) (rows : list row) (g : graph)
  : error + graph :=
  match parse_query text with
  | None => inl Malformed
  | Some qu =>
      match batch_ops qu rows with
      | inl e => inl e
      | inr ops => inr (run_ops ops g)
      end
  end.

End Semantics.

End Cypher.

(* ================================================================== *)
(** ** The __main__ block from the loader's construction on *)

Section Main.

Variable E : Type.
Variable session_run : string -> list row -> graph -> E + graph.

(** What the script can raise once the loop is entered. *)
Inductive exn :=
| KeyError (key : string)
| StoreError (e : E).

(** The state the block acts on: the store behind the driver and
    the number of times the driver has been closed. *)
Record world := { db : graph; closed : nat }.

Definition M (A : Type) : Type := world -> (exn + A) * world.

Definition ret (A : Type) (a : A) : M A := fun w => (inr a, w).

Definition raise (A : Type) (e : exn) : M A := fun w => (inl e, w).

Definition bind (A B : Type) (m : M A) (k : A -> M B) : M B :=
  fun w =>
    match m w with
    | (inl e, w') => (inl e, w')
    | (inr a, w') => k a w'
    end.

(** [try: body finally: handler]. *)
Definition try_finally (A : Type) (body : M A) (handler : M unit) : M A :=
  fun w =>
    match body w with
    | (r, w') =>
        match handler w' with
        | (inl e, w'') => (inl e, w'')
        | (inr _, w'') => (r, w'')
        end
    end.

Fixpoint for_each (A : Type) (l : list A) (body : A -> M unit) : M unit :=
  match l with
  | [] => ret tt
  | a :: l' => bind (body a) (fun _ => for_each l' body)
  end.

(** [d[k]]. *)
Definition subscript (V : Type) (d : Py.dict V) (k : string) : M V :=
  match Py.get k d with
  | Some v => ret v
  | None => raise V (KeyError k)
  end.

(** [loader.load_dataframe(df, sub_sector_name=..., sector_name=...)]. *)
Definition loader_load_dataframe (df : DataFrame)
           (sub_sector_name sector_name : option string) : M unit :=
  fun w =>
    match load_dataframe session_run df sub_sector_name sector_name (db w) with
    | inl e => (inl (StoreError e), w)
    | inr g => (inr tt, {| db := g; closed := closed w |})
    end.

(** [loader.close()]. *)
Definition loader_close : M unit :=
  fun w => (inr tt, {| db := db w; closed := S (closed w) |}).

(** The body of the [for] loop.  The first branch is taken when
    [sector_dict[i]] is truthy, that is a non-empty [str]. *)
Definition ingest_sector (data_dict : Py.dict DataFrame) (i : string)
  : M unit :=
  bind (subscript data_dict i) (fun df =>
  loader_load_dataframe df None (Some i)).

Definition ingest (data_dict : Py.dict DataFrame)
           (sector_dict : Py.dict (option string)) (i : string) : M unit :=
  bind (subscript sector_dict i) (fun entry =>
  match entry with
  | Some s =>
      if Py.truthy s then
        bind (subscript data_dict (i ++ "_" ++ s)) (fun df =>
        loader_load_dataframe df (Some i) (Some s))
      else ingest_sector data_dict i
  | None => ingest_sector data_dict i
  end).

Definition ingest_all (data_dict : Py.dict DataFrame)
           (sector_dict : Py.dict (option string)) : M unit :=
  for_each (Py.keys sector_dict) (ingest data_dict sector_dict).

(** [generate_sector_dict()] followed by the [try]/[finally]. *)
Definition main (data_dict : Py.dict DataFrame) : M unit :=
  let sector_dict := generate_sector_dict (Py.keys data_dict) in
  try_finally (ingest_all data_dict sector_dict) loader_close.

End Main.

Arguments KeyError {E} key.
Arguments StoreError {E} e.

(* ================================================================== *)
(** ** Plain decimal numerals

    A reading of [-]digits and [-]digits.digits, used to run the
    model on concrete tables. *)

Module Numerals.

Definition digit (c : ascii) : option Z :=
  let n := nat_of_ascii c in
  if (Nat.leb 48 n && Nat.leb n 57)%bool then Some (Z.of_nat (n - 48))
  else None.

Fixpoint digits (s : string) (acc : Z) : option Z :=
  match s with
  | EmptyString => Some acc
  | String c rest =>
      match digit c with
      | Some d => digits rest (10 * acc + d)%Z
      | None => None
      end
  end.

Definition unsigned (s : string) : option Z :=
  match s with
  | EmptyString => None
  | _ => digits s 0%Z
  end.

Definition signed (f : string -> option Z) (s : string) : option Z :=
  match s with
  | String "-"%char rest => option_map Z.opp (f rest)
  | _ => f s
  end.

Definition parse_int (s : string) : option Z := signed unsigned s.

Definition parse_float (s : string) : option float :=
  match Py.split "."%char s with
  | [whole] => option_map (fun m => (m, 0%Z)) (signed unsigned whole)
  | [whole; frac] =>
      match frac with
      | EmptyString => None
      | _ =>
          option_map (fun m => (m, (- Z.of_nat (String.length frac))%Z))
                     (signed unsigned (whole ++ frac))
      end
  | _ => None
  end.

End Numerals.

(** The script run against a store that reads plain numerals. *)
Definition neo4j_run : string -> list row -> graph -> Cypher.error + graph :=
  Cypher.session_run Numerals.parse_int Numerals.parse_float.

Definition fresh : world := {| db := empty_graph; closed := 0 |}.

(* ================================================================== *)
(** ** Constants.load_from_json *)

(** What [json.load] returns. *)
#[warnings="-register-all"]
Inductive json :=
| JNull
| JBool (b : bool)
| JInt (z : Z)
| JFloat (f : float)
| JStr (s : string)
| JList (l : list json)
| JDict (d : list (string * json)).

(** What subscripting a decoded document can raise. *)
Inductive py_error :=
| PyKeyError (key : json)
| PyIndexError
| PyTypeError.

(** [x[k]] for a [str] key: only a dict takes it. *)
Definition getitem_key (x : json) (k : string) : py_error + json :=
  match x with
  | JDict d =>
      match Py.get k d with
      | Some v => inr v
      | None => inl (PyKeyError (JStr k))
      end
  | _ => inl PyTypeError
  end.

(** [x[0]]: the first element of a list, the first character of a
    string; a decoded dict has no integer key. *)
Definition getitem_0 (x : json) : py_error + json :=
  match x with
  | JList (v :: _) => inr v
  | JList [] => inl PyIndexError
  | JStr (String c _) => inr (JStr (String c EmptyString))
  | JStr EmptyString => inl PyIndexError
  | JDict _ => inl (PyKeyError (JInt 0))
  | _ => inl PyTypeError
  end.

(** The class attributes; [None] is [JNull]. *)
Record Constants := {
  NEO4J_URI : json;
  NEO4J_USERNAME : json;
  NEO4J_PASSWORD : json;
  FOLDER_PATH : json
}.

Definition unset : Constants :=
  {| NEO4J_URI := JNull; NEO4J_USERNAME := JNull;
     NEO4J_PASSWORD := JNull; FOLDER_PATH := JNull |}.

(** [load_from_json] from [data = json.load(file)] on: the
    attributes are assigned one after the other, so an error leaves
    the earlier ones assigned. *)
Definition load_from_json (data : json) (cls : Constants)
  : option py_error * Constants :=
  match getitem_key data "NEO4J_CONSTANTS" with
  | inl e => (Some e, cls)
  | inr l =>
  match getitem_0 l with
  | inl e => (Some e, cls)
  | inr neo4j_constants =>
  match getitem_key neo4j_constants "NEO4J_URI" with
  | inl e => (Some e, cls)
  | inr uri =>
  let cls1 := {| NEO4J_URI := uri;
                 NEO4J_USERNAME := NEO4J_USERNAME cls;
                 NEO4J_PASSWORD := NEO4J_PASSWORD cls;
                 FOLDER_PATH := FOLDER_PATH cls |} in
  match getitem_key neo4j_constants "NEO4J_USERNAME" with
  | inl e => (Some e, cls1)
  | inr user =>
  let cls2 := {| NEO4J_URI := uri;
                 NEO4J_USERNAME := user;
                 NEO4J_PASSWORD := NEO4J_PASSWORD cls;
                 FOLDER_PATH := FOLDER_PATH cls |} in
  match getitem_key neo4j_constants "NEO4J_PASSWORD" with
  | inl e => (Some e, cls2)
  | inr password =>
  let cls3 := {| NEO4J_URI := uri;
                 NEO4J_USERNAME := user;
                 NEO4J_PASSWORD := password;
                 FOLDER_PATH := FOLDER_PATH cls |} in
  match getitem_key data "FOLDER_PATH" with
  | inl e => (Some e, cls3)
  | inr folder =>
      (None, {| NEO4J_URI := uri;
                NEO4J_USERNAME := user;
                NEO4J_PASSWORD := password;
                FOLDER_PATH := folder |})
  end end end end end end.

(* ================================================================== *)
(** ** DataProcessor.load_data *)

Section LoadData.

(** What the readers can raise. *)
Variable R : Type.

(** An item of the folder: not a regular file, or a file, given by
    what [pd.read_csv] and [pd.read_excel(sheet_name=None)] make of
    it. *)
Inductive item :=
| NotFile
| File (as_csv : R + DataFrame) (as_excel : R + Py.dict DataFrame).

Definition dot : ascii := "."%char.

(** [item.split('.')[-1]] and [item.split('.')[0]]. *)
Definition file_extension (name : string) : string :=
  last (Py.split dot name) EmptyString.

Definition stem (name : string) : string :=
  nth 0 (Py.split dot name) EmptyString.

Definition store_sheets (sheets : Py.dict DataFrame)
           (data_dict : Py.dict DataFrame) : Py.dict DataFrame :=
  fold_left (fun d kv => Py.set (fst kv) (snd kv) d) sheets data_dict.

(** The body of the loop for one item of the listing. *)
Definition load_item (name : string) (it : item)
           (data_dict : Py.dict DataFrame) : R + Py.dict DataFrame :=
  match it with
  | NotFile => inr data_dict
  | File as_csv as_excel =>
      if String.eqb (file_extension name) "csv" then
        match as_csv with
        | inl e => inl e
        | inr df => inr (Py.set (stem name) df data_dict)
        end
      else if (String.eqb (file_extension name) "xls"
               || String.eqb (file_extension name) "xlsx")%bool then
        match as_excel with
        | inl e => inl e
        | inr sheets => inr (store_sheets sheets data_dict)
        end
      else inr data_dict
  end.

(** [load_data] over the listing [os.listdir] returned: the outcome
    and the [data_dict] it leaves. *)
Fixpoint load_data (listing : list (string * item))
         (data_dict : Py.dict DataFrame) : option R * Py.dict DataFrame :=
  match listing with
  | [] => (None, data_dict)
  | (name, it) :: rest =>
      match load_item name it data_dict with
      | inl e => (Some e, data_dict)
      | inr data_dict' => load_data rest data_dict'
      end
  end.

End LoadData.

Arguments NotFile {R}.

(* ================================================================== *)
(** ** The script from its first line *)

Section Script.

Variable E : Type.
Variable session_run : string -> list row -> graph -> E + graph.

(** The world outside the script: what opening and decoding the
    configuration file gives; what [os.listdir] gives for the folder,
    each item with what reading it would give, or the error raised
    before any item is read; and whether building the driver
    raises. *)
Variable R : Type.
Variable read_json : string -> R + json.
Variable listdir : json -> R + list (string * item R).
Variable driver : json -> json -> json -> option R.

Inductive script_exn :=
| SystemExit (code : Z)
| ConfigError (e : py_error)
| OutsideError (e : R)
| LoopError (e : exn E).

(** The class attributes, the store with the count of closed
    drivers, and the count of drivers built. *)
Record process := { constants : Constants; outside : world; opened : nat }.

Definition script (argv : list string) (p : process)
  : option script_exn * process :=
  if Nat.ltb (List.length argv) 2 then (Some (SystemExit 1), p)
  else
    let json_file_path := nth 1 argv EmptyString in
    match read_json json_file_path with
    | inl e => (Some (OutsideError e), p)
    | inr data =>
    match load_from_json data (constants p) with
    | (Some e, cls) =>
        (Some (ConfigError e),
         {| constants := cls; outside := outside p; opened := opened p |})
    | (None, cls) =>
    let p1 := {| constants := cls; outside := outside p;
                 opened := opened p |} in
    match listdir (FOLDER_PATH cls) with
    | inl e => (Some (OutsideError e), p1)
    | inr listing =>
    match load_data listing [] with
    | (Some e, _) => (Some (OutsideError e), p1)
    | (None, data_dict) =>
    match driver (NEO4J_URI cls) (NEO4J_USERNAME cls) (NEO4J_PASSWORD cls) with
    | Some e => (Some (OutsideError e), p1)
    | None =>
        match main session_run data_dict (outside p) with
        | (r, w) =>
            (match r with
             | inl e => Some (LoopError e)
             | inr _ => None
             end,
             {| constants := cls; outside := w; opened := S (opened p) |})
        end
    end end end end end.

End Script.

Arguments SystemExit {E R} code.
Arguments ConfigError {E R} e.
Arguments OutsideError {E R} e.
Arguments LoopError {E R} e.

(* ================================================================== *)
(** ** Names used in the statements *)

(** The two components of a classifier entry, and the number of
    segments [key.split('_')] yields. *)
Definition sector_of (key : string) : string := fst (sector_entry key).
Definition sub_sector_of (key : string) : option string := snd (sector_entry key).

Definition segments (key : string) : nat :=
  List.length (Py.split underscore key).

(** The table a routing entry makes the loop look up, and the two
    names it passes on. *)
Definition table_key (i : string) (entry : option string) : string :=
  match entry with
  | Some s => if Py.truthy s then i ++ "_" ++ s else i
  | None => i
  end.

Definition passed_sub_sector_name (i : string) (entry : option string)
  : option string :=
  match entry with
  | Some s => if Py.truthy s then Some i else None
  | None => None
  end.

Definition passed_sector_name (i : string) (entry : option string)
  : option string :=
  match entry with
  | Some s => if Py.truthy s then Some s else Some i
  | None => Some i
  end.

(** A step of the script that leaves the driver as it found it. *)
Definition keeps_closed (A : Type) (E : Type) (m : M E A) : Prop :=
  forall w, closed (snd (m w)) = closed w.

(** What an upsert asks the store to hold. *)
Definition present (g : graph) (o : op) : Prop :=
  match o with
  | MergeNode n _ => In n (nodes g)
  | MergeEdge e => In e (edges g)
  end.

Definition merged_node (n : node) (o : op) : Prop :=
  exists on_create, o = MergeNode n on_create.

(** The integer a cell stands for when it is used as a year: an
    integer itself, a float without its fraction, a text through the
    store's reading of integers; null stands for none. *)
Definition reads_as_integer (parse_int : string -> option Z)
           (v : value) (y : Z) : Prop :=
  match v with
  | VNull => False
  | VInt z => y = z
  | VFloat (m, e) =>
      y = if (0 <=? e)%Z then (m * 10 ^ e)%Z else Z.quot m (10 ^ (- e))
  | VStr s => parse_int s = Some y
  end.

(** Two runs that fail with the same error or both go through. *)
Definition same_outcome (A B : Type) (x : Cypher.error + A) (y : Cypher.error + B)
  : Prop :=
  match x, y with
  | inl e, inl e' => e = e'
  | inr _, inr _ => True
  | _, _ => False
  end.

(** The number of times a character occurs in a string. *)
Fixpoint occurrences (c : ascii) (s : string) : nat :=
  match s with
  | EmptyString => 0
  | String d rest => (if Ascii.eqb d c then 1 else 0) + occurrences c rest
  end.

(** A table name of the form SECTOR or SECTOR_SUBSECTOR with a
    sub-sector that is not empty. *)
Definition regular (key : string) : Prop :=
  segments key = 1 \/
  (segments key = 2 /\ sub_sector_of key <> Some EmptyString).

(** A store in which every relationship joins two nodes it holds. *)
Definition well_formed (g : graph) : Prop :=
  forall a r b, In (a, r, b) (edges g) -> In a (nodes g) /\ In b (nodes g).

(** What the first upsert of a node in a list of upserts would set
    on creating it. *)
Fixpoint first_payload (n : node) (ops : list op) : option (option float) :=
  match ops with
  | [] => None
  | MergeNode m on_create :: ops' =>
      if node_eq_dec n m then Some on_create else first_payload n ops'
  | MergeEdge _ :: ops' => first_payload n ops'
  end.

(** The row fields the node patterns above the metrics read. *)
Definition dimension_fields : list string :=
  ["State"; "Region"; "County"; "county_id"].

(** The keys the loop body of [load_data] assigns for one item whose
    reading goes through. *)
Definition written_keys (R : Type) (name : string) (it : item R)
  : list string :=
  match it with
  | NotFile => []
  | File as_csv as_excel =>
      if String.eqb (file_extension name) "csv" then
        match as_csv with
        | inr _ => [stem name]
        | inl _ => []
        end
      else if (String.eqb (file_extension name) "xls"
               || String.eqb (file_extension name) "xlsx")%bool then
        match as_excel with
        | inr sheets => Py.keys sheets
        | inl _ => []
        end
      else []
  end.

(* ================================================================== *)
(** ** Tables and stores used in the examples *)

(** One row: OH, NE, Cuyahoga, 39035, 2020, and Employment 1200.5;
    then the same row with an Employment cell that is not a number,
    with another Employment figure, and with a Year that is not a
    number. *)
Definition ohio : DataFrame :=
  {| columns := ["State"; "Region"; "County"; "county_id"; "Year"; "Employment"];
     data := [[VStr "OH"; VStr "NE"; VStr "Cuyahoga"; VStr "39035";
               VInt 2020; VFloat (12005, -1)%Z]] |}.

Definition ohio_text : DataFrame :=
  {| columns := ["State"; "Region"; "County"; "county_id"; "Year"; "Employment"];
     data := [[VStr "OH"; VStr "NE"; VStr "Cuyahoga"; VStr "39035";
               VInt 2020; VStr "n/a"]] |}.

Definition ohio_revised : DataFrame :=
  {| columns := ["State"; "Region"; "County"; "county_id"; "Year"; "Employment"];
     data := [[VStr "OH"; VStr "NE"; VStr "Cuyahoga"; VStr "39035";
               VInt 2020; VInt 999]] |}.

Definition ohio_no_year : DataFrame :=
  {| columns := ["State"; "Region"; "County"; "county_id"; "Year"; "Employment"];
     data := [[VStr "OH"; VStr "NE"; VStr "Cuyahoga"; VStr "39035";
               VStr "n/a"; VInt 999]] |}.

Definition cuyahoga_2020 (metric_name : string) : node :=
  Metrics metric_name 2020 (VStr "Cuyahoga").

Definition first_record (df : DataFrame) : row :=
  nth 0 (to_dict_records df) [].

(** The store after a load, or the store as it was when the load
    raised. *)
Definition loaded (df : DataFrame) (sub_sector_name sector_name : option string)
           (g : graph) : graph :=
  match load_dataframe neo4j_run df sub_sector_name sector_name g with
  | inr g' => g'
  | inl _ => g
  end.

Definition ohio_loaded : graph :=
  loaded ohio (Some "Grocery") (Some "Retail") empty_graph.

(** A store that already holds a Metrics node under a Sector node. *)
Definition reported_by_sector : graph :=
  {| nodes := [Sector "Retail"; cuyahoga_2020 "Employment"];
     values := [];
     edges := [(Sector "Retail", REPORTS, cuyahoga_2020 "Employment")] |}.

(** The Ohio frame without its county_id column, and without lines. *)
Definition ohio_no_fips : DataFrame :=
  {| columns := ["State"; "Region"; "County"; "Year"; "Employment"];
     data := [[VStr "OH"; VStr "NE"; VStr "Cuyahoga";
               VInt 2020; VFloat (12005, -1)%Z]] |}.

Definition ohio_no_lines : DataFrame :=
  {| columns := ["State"; "Region"; "County"; "county_id"; "Year"; "Employment"];
     data := [] |}.

(** The text sent for sub-sector name Grocery and sector name Retail. *)
Definition grocery_retail_text : string :=
  query_text (escape "Grocery") (escape "Retail").

(** The store after the Ohio row and its revision are sent as one
    batch, in that order. *)
Definition ohio_then_revised : graph :=
  match neo4j_run grocery_retail_text
                  [first_record ohio; first_record ohio_revised] empty_graph
  with
  | inr g => g
  | inl _ => empty_graph
  end.

(** A folder: a csv file, a text file, a sub-folder and a workbook
    with one sheet; and a folder whose second csv file cannot be
    read. *)
Definition folder : list (string * item unit) :=
  [("Retail_Grocery.csv", File (inr ohio) (inl tt));
   ("notes.txt", File (inl tt) (inl tt));
   ("archive", NotFile);
   ("book.xlsx", File (inl tt) (inr [("Housing", ohio_revised)]))].

Definition folder_unreadable : list (string * item unit) :=
  [("Retail_Grocery.csv", File (inr ohio) (inl tt));
   ("Housing.csv", File (inl tt) (inl tt));
   ("Energy.csv", File (inr ohio) (inl tt))].

(** A configuration document, and the same without its folder. *)
Definition neo4j_constants : json :=
  JDict [("NEO4J_URI", JStr "bolt://localhost:7687");
         ("NEO4J_USERNAME", JStr "neo4j");
         ("NEO4J_PASSWORD", JStr "secret")].

Definition config : json :=
  JDict [("NEO4J_CONSTANTS", JList [neo4j_constants]);
         ("FOLDER_PATH", JStr "data")].

Definition config_no_folder : json :=
  JDict [("NEO4J_CONSTANTS", JList [neo4j_constants])].

(** The process before the script starts, and the script in a world
    where the configuration is [config], the folder is [folder] and
    the driver can be built. *)
Definition start : process :=
  {| constants := unset; outside := fresh; opened := 0 |}.

Definition script_here (argv : list string) (p : process)
  : option (script_exn Cypher.error unit) * process :=
  script neo4j_run (fun _ => inr config) (fun _ => inr folder)
         (fun _ _ _ => None) argv p.

(** The Ohio row with its Year written as the float 2020.7. *)
Definition ohio_float_year : DataFrame :=
  {| columns := ["State"; "Region"; "County"; "county_id"; "Year"; "Employment"];
     data := [[VStr "OH"; VStr "NE"; VStr "Cuyahoga"; VStr "39035";
               VFloat (20207, -1)%Z; VFloat (12005, -1)%Z]] |}.

(** The Ohio row followed by its revision in one frame, and the same
    two lines the other way round. *)
Definition ohio_two_lines : DataFrame :=
  {| columns := ["State"; "Region"; "County"; "county_id"; "Year"; "Employment"];
     data := [[VStr "OH"; VStr "NE"; VStr "Cuyahoga"; VStr "39035";
               VInt 2020; VFloat (12005, -1)%Z];
              [VStr "OH"; VStr "NE"; VStr "Cuyahoga"; VStr "39035";
               VInt 2020; VInt 999]] |}.

Definition ohio_two_lines_back : DataFrame :=
  {| columns := ["State"; "Region"; "County"; "county_id"; "Year"; "Employment"];
     data := [[VStr "OH"; VStr "NE"; VStr "Cuyahoga"; VStr "39035";
               VInt 2020; VInt 999];
              [VStr "OH"; VStr "NE"; VStr "Cuyahoga"; VStr "39035";
               VInt 2020; VFloat (12005, -1)%Z]] |}.

(* ================================================================== *)
(** * Properties *)

(** ** Python built-ins *)

Section PyFacts.

Variable sep : ascii.

Lemma split_not_nil (s : string) : Py.split sep s <> [].
Proof.
  destruct s as [|c s]; simpl; [discriminate|].
  destruct (Ascii.eqb c sep); [discriminate|].
  destruct (Py.split sep s); discriminate.
Qed.

Lemma split_no_sep (a : string) :
  Py.mem sep a = false -> Py.split sep a = [a].
Proof.
  induction a as [|c a IH]; simpl; intros H; [reflexivity|].
  apply orb_false_iff in H as [Hc Ha].
  rewrite Hc, (IH Ha). reflexivity.
Qed.

Lemma split_segment (a rest : string) :
  Py.mem sep a = false ->
  Py.split sep (a ++ String sep rest) = a :: Py.split sep rest.
Proof.
  induction a as [|c a IH]; simpl; intros H.
  - rewrite Ascii.eqb_refl. reflexivity.
  - apply orb_false_iff in H as [Hc Ha].
    rewrite Hc, (IH Ha). reflexivity.
Qed.

Lemma split_segments_clean (s seg : string) :
  In seg (Py.split sep s) -> Py.mem sep seg = false.
Proof.
  revert seg. induction s as [|c s IH]; simpl; intros seg H.
  - destruct H as [<-|[]]. reflexivity.
  - destruct (Ascii.eqb c sep) eqn:Hc.
    + destruct H as [<-|H]; [reflexivity | auto].
    + destruct (Py.split sep s) as [|h t] eqn:Hs.
      * destruct H as [<-|[]]. simpl. rewrite Hc. reflexivity.
      * destruct H as [<-|H].
        -- simpl. rewrite Hc. simpl. apply IH. left. reflexivity.
        -- apply IH. right. exact H.
Qed.

Lemma join_split (s : string) : Py.join sep (Py.split sep s) = s.
Proof.
  induction s as [|c s IH]; simpl; [reflexivity|].
  destruct (Ascii.eqb c sep) eqn:Hc.
  - apply Ascii.eqb_eq in Hc. subst c.
    pose proof (split_not_nil s) as Hn.
    destruct (Py.split sep s) as [|h t]; [congruence|].
    simpl in *. rewrite IH. reflexivity.
  - pose proof (split_not_nil s) as Hn.
    destruct (Py.split sep s) as [|h t]; [congruence|].
    destruct t; simpl in *; rewrite <- IH; reflexivity.
Qed.

End PyFacts.

Section DictFacts.

Variable V : Type.
Implicit Types (d : Py.dict V) (k : string) (v : V).

Lemma get_set_same d k v : Py.get k (Py.set k v d) = Some v.
Proof.
  induction d as [|[k' v'] d IH]; simpl.
  - rewrite String.eqb_refl. reflexivity.
  - destruct (String.eqb k k') eqn:Hk; simpl; rewrite Hk; auto.
Qed.

Lemma get_set_other d k k' v :
  k <> k' -> Py.get k (Py.set k' v d) = Py.get k d.
Proof.
  intros Hne. induction d as [|[k0 v0] d IH]; simpl.
  - apply String.eqb_neq in Hne. rewrite Hne. reflexivity.
  - destruct (String.eqb k' k0) eqn:Hk; simpl.
    + apply String.eqb_eq in Hk. subst k0.
      apply String.eqb_neq in Hne. rewrite Hne. reflexivity.
    + rewrite IH. reflexivity.
Qed.

Lemma keys_set d k k' v :
  In k (Py.keys (Py.set k' v d)) <-> k = k' \/ In k (Py.keys d).
Proof.
  induction d as [|[k0 v0] d IH]; simpl.
  - intuition.
  - destruct (String.eqb k' k0) eqn:Hk; simpl.
    + apply String.eqb_eq in Hk. subst k0. intuition.
    + rewrite IH. intuition.
Qed.

Lemma keys_set_NoDup d k v :
  NoDup (Py.keys d) -> NoDup (Py.keys (Py.set k v d)).
Proof.
  induction d as [|[k0 v0] d IH]; simpl; intros H.
  - constructor; [intros [] | constructor].
  - inversion H as [|? ? Hnotin Hnd]; subst.
    destruct (String.eqb k k0) eqn:Hk; simpl.
    + constructor; assumption.
    + constructor; [|auto].
      intros Hin. apply keys_set in Hin as [->|Hin]; [|contradiction].
      rewrite String.eqb_refl in Hk. discriminate.
Qed.

Lemma get_in_keys d k v : Py.get k d = Some v -> In k (Py.keys d).
Proof.
  induction d as [|[k0 v0] d IH]; simpl; [discriminate|].
  destruct (String.eqb k k0) eqn:Hk; intros H.
  - apply String.eqb_eq in Hk. auto.
  - auto.
Qed.

Lemma in_keys_get d k : In k (Py.keys d) -> exists v, Py.get k d = Some v.
Proof.
  induction d as [|[k0 v0] d IH]; simpl; [intros []|].
  destruct (String.eqb k k0) eqn:Hk; intros H.
  - eauto.
  - destruct H as [->|H]; [|auto].
    rewrite String.eqb_refl in Hk. discriminate.
Qed.

Lemma get_not_in_keys d k : ~ In k (Py.keys d) -> Py.get k d = None.
Proof.
  intros H. destruct (Py.get k d) eqn:Hg; [|reflexivity].
  apply get_in_keys in Hg. contradiction.
Qed.

End DictFacts.

(** ** The table classifier *)

Lemma classify_step_get_same d key :
  Py.get (sector_of key) (classify_step d key) = Some (sub_sector_of key).
Proof.
  unfold classify_step, sector_of, sub_sector_of.
  destruct (sector_entry key) as [s b]. apply get_set_same.
Qed.

Lemma classify_step_get_other d key s :
  sector_of key <> s ->
  Py.get s (classify_step d key) = Py.get s d.
Proof.
  unfold classify_step, sector_of.
  destruct (sector_entry key) as [s' b]. simpl. intros H.
  apply get_set_other. congruence.
Qed.

Lemma classify_get_untouched names : forall d s,
  (forall n, In n names -> sector_of n <> s) ->
  Py.get s (fold_left classify_step names d) = Py.get s d.
Proof.
  induction names as [|n names IH]; simpl; intros d s H; [reflexivity|].
  rewrite IH by auto. apply classify_step_get_other. auto.
Qed.

Lemma classify_get_last pre n post d :
  (forall m, In m post -> sector_of m <> sector_of n) ->
  Py.get (sector_of n) (fold_left classify_step (pre ++ n :: post)%list d)
  = Some (sub_sector_of n).
Proof.
  intros H. rewrite fold_left_app. simpl.
  rewrite classify_get_untouched by assumption.
  apply classify_step_get_same.
Qed.

Lemma classify_step_keys d key s :
  In s (Py.keys (classify_step d key)) <-> s = sector_of key \/ In s (Py.keys d).
Proof.
  unfold classify_step, sector_of.
  destruct (sector_entry key) as [s' b]. apply keys_set.
Qed.

Lemma classify_keys names : forall d s,
  In s (Py.keys (fold_left classify_step names d)) <->
  In s (Py.keys d) \/ exists n, In n names /\ sector_of n = s.
Proof.
  induction names as [|n names IH]; simpl; intros d s.
  - split; [auto | intros [H|[n [[] _]]]; exact H].
  - rewrite IH, classify_step_keys. split.
    + intros [[->|H]|[m [Hm Hs']]]; eauto 6.
    + intros [H|[m [[<-|Hm] Hs']]]; eauto 6.
Qed.

Lemma classify_keys_NoDup names : forall d,
  NoDup (Py.keys d) -> NoDup (Py.keys (fold_left classify_step names d)).
Proof.
  induction names as [|n names IH]; simpl; intros d H; [exact H|].
  apply IH. unfold classify_step. destruct (sector_entry n).
  apply keys_set_NoDup. exact H.
Qed.

Lemma sector_entry_one a :
  Py.mem underscore a = false -> sector_entry a = (a, None).
Proof.
  intros H. unfold sector_entry. rewrite (split_no_sep _ _ H). reflexivity.
Qed.

Lemma sector_entry_two a b :
  Py.mem underscore a = false -> Py.mem underscore b = false ->
  sector_entry (a ++ "_" ++ b) = (a, Some b).
Proof.
  intros Ha Hb. unfold sector_entry. simpl.
  change (String "_" b) with (String underscore b).
  rewrite (split_segment _ _ _ Ha), (split_no_sep _ _ Hb). reflexivity.
Qed.

Lemma sector_entry_more a b rest :
  Py.mem underscore a = false -> Py.mem underscore b = false ->
  sector_entry (a ++ "_" ++ b ++ "_" ++ rest) = (a, Some b).
Proof.
  intros Ha Hb. unfold sector_entry. simpl.
  change (String "_" (b ++ String "_" rest))
    with (String underscore (b ++ String underscore rest)).
  rewrite (split_segment _ _ _ Ha), (split_segment _ _ _ Hb). reflexivity.
Qed.

(** C3.  The classifier sends a name to its first segment paired with
    its second segment, or with none when there is only one, whatever
    follows the second; in the resulting dict a sector carries the
    entry of the last name that has it as first segment, and nothing
    else is a key; the two names of the routing example give exactly
    the expected mapping. *)
Theorem generate_sector_dict_spec :
  (forall a, Py.mem underscore a = false -> sector_entry a = (a, None)) /\
  (forall a b, Py.mem underscore a = false -> Py.mem underscore b = false ->
     sector_entry (a ++ "_" ++ b) = (a, Some b)) /\
  (forall a b rest,
     Py.mem underscore a = false -> Py.mem underscore b = false ->
     sector_entry (a ++ "_" ++ b ++ "_" ++ rest) = (a, Some b)) /\
  (forall pre n post,
     (forall m, In m post -> sector_of m <> sector_of n) ->
     Py.get (sector_of n) (generate_sector_dict (pre ++ n :: post)%list)
     = Some (sub_sector_of n)) /\
  (forall names s,
     In s (Py.keys (generate_sector_dict names)) <->
     exists n, In n names /\ sector_of n = s) /\
  generate_sector_dict ["Retail_Grocery"; "Housing"]
  = [("Retail", Some "Grocery"); ("Housing", None)].
Proof.
  split; [exact sector_entry_one|].
  split; [exact sector_entry_two|].
  split; [exact sector_entry_more|].
  split; [intros; apply classify_get_last; assumption|].
  split; [|reflexivity].
  intros names s. unfold generate_sector_dict. rewrite classify_keys.
  simpl. tauto.
Qed.

Lemma generate_sector_dict_spec_witness :
  sector_entry ("A" ++ "_" ++ "B" ++ "_" ++ "C") = ("A", Some "B") /\
  Py.get (sector_of "A_x") (generate_sector_dict (["A_x"] ++ "A_y" :: ["B"])%list)
  = Some (sub_sector_of "A_y").
Proof.
  destruct generate_sector_dict_spec as (_ & _ & H3 & H4 & _).
  split.
  - apply H3; reflexivity.
  - apply (H4 ["A_x"] "A_y" ["B"]).
    intros m [<-|[]]. vm_compute. discriminate.
Defined.

Lemma generate_sector_dict_origin names : forall d i e,
  Py.get i (fold_left classify_step names d) = Some e ->
  Py.get i d = Some e \/ exists n, In n names /\ sector_entry n = (i, e).
Proof.
  induction names as [|n names IH]; simpl; intros d i e H; [auto|].
  apply IH in H as [H|[m [Hm He]]]; [|eauto].
  destruct (string_dec (sector_of n) i) as [Hi|Hi].
  - right. exists n. split; [auto|].
    subst i. rewrite classify_step_get_same in H.
    unfold sector_of, sub_sector_of in *.
    destruct (sector_entry n). simpl in *. congruence.
  - rewrite classify_step_get_other in H by assumption. auto.
Qed.

(** ** The __main__ block *)

Section MainFacts.

Variable E : Type.
Variable run : string -> list row -> graph -> E + graph.

Lemma ingest_unfold data_dict sector_dict i entry w :
  Py.get i sector_dict = Some entry ->
  ingest run data_dict sector_dict i w =
  match Py.get (table_key i entry) data_dict with
  | None => (inl (KeyError (table_key i entry)), w)
  | Some df =>
      loader_load_dataframe run df (passed_sub_sector_name i entry)
                            (passed_sector_name i entry) w
  end.
Proof.
  intros H. unfold ingest, bind, subscript at 1. rewrite H.
  unfold ret, table_key, passed_sub_sector_name, passed_sector_name.
  destruct entry as [s|]; [destruct (Py.truthy s)|];
    unfold ingest_sector, bind, subscript;
    match goal with |- context [Py.get ?k data_dict] =>
      destruct (Py.get k data_dict) end; reflexivity.
Qed.

Lemma keeps_closed_bind (A B : Type) (m : M E A) (k : A -> M E B) :
  keeps_closed m -> (forall a, keeps_closed (k a)) -> keeps_closed (bind m k).
Proof.
  intros Hm Hk w. unfold bind. specialize (Hm w).
  destruct (m w) as [[e|a] w']; simpl in *; [exact Hm|].
  rewrite Hk. exact Hm.
Qed.

Lemma keeps_closed_subscript (V : Type) (d : Py.dict V) k :
  keeps_closed (subscript E d k).
Proof. intros w. unfold subscript. destruct (Py.get k d); reflexivity. Qed.

Lemma keeps_closed_load df sub sec :
  keeps_closed (loader_load_dataframe run df sub sec).
Proof.
  intros w. unfold loader_load_dataframe.
  destruct (load_dataframe run df sub sec (db w)); reflexivity.
Qed.

Lemma keeps_closed_ingest data_dict sector_dict i :
  keeps_closed (ingest run data_dict sector_dict i).
Proof.
  unfold ingest, ingest_sector.
  apply keeps_closed_bind; [apply keeps_closed_subscript|].
  intros [s|]; [destruct (Py.truthy s)|];
    (apply keeps_closed_bind;
     [apply keeps_closed_subscript | intros; apply keeps_closed_load]).
Qed.

Lemma keeps_closed_for_each (A : Type) (l : list A) (body : A -> M E unit) :
  (forall a, keeps_closed (body a)) -> keeps_closed (for_each l body).
Proof.
  intros H. induction l as [|a l IH]; simpl.
  - intros w. reflexivity.
  - apply keeps_closed_bind; auto.
Qed.

Lemma for_each_app (A : Type) (pre post : list A) (body : A -> M E unit) w w1 :
  for_each pre body w = (inr tt, w1) ->
  for_each (pre ++ post)%list body w = for_each post body w1.
Proof.
  revert w. induction pre as [|a pre IH]; simpl; intros w H.
  - unfold ret in H. congruence.
  - unfold bind in *. destruct (body a w) as [[e|[]] w']; [discriminate|].
    apply IH. exact H.
Qed.

Lemma for_each_fails (A : Type) (l : list A) (body : A -> M E unit) a :
  In a l -> (forall w, exists e, fst (body a w) = inl e) ->
  forall w, exists e, fst (for_each l body w) = inl e.
Proof.
  intros Hin Hf. induction l as [|b l IH]; [destruct Hin|].
  intros w. simpl. unfold bind.
  destruct (body b w) as [[e|[]] w'] eqn:Hb; [simpl; eauto|].
  destruct Hin as [->|Hin]; [|apply IH; exact Hin].
  destruct (Hf w) as [e He]. rewrite Hb in He. discriminate.
Qed.

Lemma main_after_loop (data_dict : Py.dict DataFrame) (w : world) :
  main run data_dict w =
  (fst (ingest_all run data_dict (generate_sector_dict (Py.keys data_dict)) w),
   {| db := db (snd (ingest_all run data_dict
                       (generate_sector_dict (Py.keys data_dict)) w));
      closed := S (closed w) |}).
Proof.
  unfold main, try_finally, loader_close.
  pose proof (@keeps_closed_for_each _ (Py.keys (generate_sector_dict (Py.keys data_dict)))
                (ingest run data_dict (generate_sector_dict (Py.keys data_dict)))
                (keeps_closed_ingest data_dict _) w) as Hc.
  unfold ingest_all.
  destruct (for_each _ _ w) as [r w']. simpl in *. rewrite Hc. reflexivity.
Qed.

(** C9.  Whatever the store does on each transaction, and whether
    the loop ends normally or raises a lookup error or a store
    error, the run closes the driver once, and its outcome and
    the store it leaves are those of the loop: the error, if any,
    reaches the caller. *)
Theorem main_closes_once (data_dict : Py.dict DataFrame) (w : world) :
  let sector_dict := generate_sector_dict (Py.keys data_dict) in
  let loop := ingest_all run data_dict sector_dict w in
  closed (snd (main run data_dict w)) = S (closed w) /\
  fst (main run data_dict w) = fst loop /\
  db (snd (main run data_dict w)) = db (snd loop).
Proof.
  intros sector_dict loop. rewrite main_after_loop. simpl. auto.
Qed.

Lemma sector_entry_clean n i e :
  sector_entry n = (i, e) ->
  Py.mem underscore i = false /\
  (forall s, e = Some s -> Py.mem underscore s = false).
Proof.
  unfold sector_entry. intros H. injection H as Hi He.
  pose proof (split_not_nil underscore n) as Hn.
  pose proof (split_segments_clean underscore n) as Hc.
  destruct (Py.split underscore n) as [|a [|b l]]; [congruence| |]; simpl in *.
  - subst. split; [apply Hc; auto | discriminate].
  - subst. split; [apply Hc; auto|].
    intros s Hs. injection Hs as <-. apply Hc. auto.
Qed.

Lemma table_key_segments names i e :
  Py.get i (generate_sector_dict names) = Some e ->
  segments (table_key i e) <= 2.
Proof.
  intros H. apply generate_sector_dict_origin in H as [H|[n [_ Hn]]];
    [discriminate|].
  apply sector_entry_clean in Hn as [Hi He].
  unfold segments, table_key.
  destruct e as [s|]; [destruct (Py.truthy s)|].
  - simpl. change (String "_" s) with (String underscore s).
    rewrite (split_segment _ _ _ Hi), (split_no_sep _ _ (He s eq_refl)).
    simpl. lia.
  - rewrite (split_no_sep _ _ Hi). simpl. lia.
  - rewrite (split_no_sep _ _ Hi). simpl. lia.
Qed.

Lemma ingest_missing_table data_dict sector_dict i entry w :
  Py.get i sector_dict = Some entry ->
  ~ In (table_key i entry) (Py.keys data_dict) ->
  ingest run data_dict sector_dict i w = (inl (KeyError (table_key i entry)), w).
Proof.
  intros H Hk. rewrite (ingest_unfold _ _ _ _ H).
  rewrite (get_not_in_keys _ _ Hk). reflexivity.
Qed.

(** C10, as the script has it.  A loaded table whose name has three
    segments or more is never the table a routing entry looks up:
    each entry reads the one table named by its lookup key, and
    every lookup key has at most two segments.  Its sector has a
    routing entry, and when the key rebuilt from that entry names no
    loaded table the run fails; the error is the lookup error for
    that key as soon as the entries before it were ingested. *)
Theorem long_name_lookup (data_dict : Py.dict DataFrame) (n : string) :
  In n (Py.keys data_dict) ->
  3 <= segments n ->
  let sector_dict := generate_sector_dict (Py.keys data_dict) in
  exists entry,
    Py.get (sector_of n) sector_dict = Some entry /\
    (forall i e w,
       Py.get i sector_dict = Some e ->
       ingest run data_dict sector_dict i w =
       match Py.get (table_key i e) data_dict with
       | None => (inl (KeyError (table_key i e)), w)
       | Some df =>
           loader_load_dataframe run df (passed_sub_sector_name i e)
                                 (passed_sector_name i e) w
       end) /\
    (forall i e, Py.get i sector_dict = Some e -> table_key i e <> n) /\
    (~ In (table_key (sector_of n) entry) (Py.keys data_dict) ->
     forall w,
       (exists err, fst (main run data_dict w) = inl err) /\
       (forall pre post w1,
          Py.keys sector_dict = (pre ++ sector_of n :: post)%list ->
          for_each pre (ingest run data_dict sector_dict) w = (inr tt, w1) ->
          fst (main run data_dict w)
          = inl (KeyError (table_key (sector_of n) entry)))).
Proof.
  intros Hin Hseg sector_dict.
  assert (Hkey : In (sector_of n) (Py.keys sector_dict)).
  { apply classify_keys. right. eauto. }
  destruct (in_keys_get _ _ Hkey) as [entry Hentry].
  exists entry. split; [exact Hentry|].
  split; [intros i e w He; apply ingest_unfold; exact He|]. split.
  - intros i e He Heq. apply table_key_segments in He.
    rewrite Heq in He. lia.
  - intros Hmiss w.
    rewrite main_after_loop. fold sector_dict. simpl. unfold ingest_all. split.
    + apply for_each_fails with (a := sector_of n); [exact Hkey|].
      intros w0. erewrite ingest_missing_table; [|exact Hentry|exact Hmiss].
      simpl. eauto.
    + intros pre post w1 Hkeys Hpre. rewrite Hkeys.
      erewrite for_each_app by exact Hpre. simpl. unfold bind.
      erewrite ingest_missing_table; [|exact Hentry|exact Hmiss]. reflexivity.
Qed.

End MainFacts.

(** ** The store under upserts *)

Section GraphFacts.

Lemma has_node_true g n : has_node g n = true <-> In n (nodes g).
Proof.
  unfold has_node. destruct (in_dec node_eq_dec n (nodes g)); split;
    intros; auto; discriminate.
Qed.

Lemma has_edge_true g e : has_edge g e = true <-> In e (edges g).
Proof.
  unfold has_edge. destruct (in_dec edge_eq_dec e (edges g)); split;
    intros; auto; discriminate.
Qed.

Lemma has_node_false g n : has_node g n = false <-> ~ In n (nodes g).
Proof.
  unfold has_node. destruct (in_dec node_eq_dec n (nodes g)); split; intros H;
    try discriminate; try contradiction; auto.
Qed.

Lemma has_edge_false g e : has_edge g e = false <-> ~ In e (edges g).
Proof.
  unfold has_edge. destruct (in_dec edge_eq_dec e (edges g)); split; intros H;
    try discriminate; try contradiction; auto.
Qed.

Lemma apply_op_present g o : present g o -> apply_op g o = g.
Proof.
  destruct o as [n oc|e]; simpl; intros H.
  - apply has_node_true in H. rewrite H. reflexivity.
  - apply has_edge_true in H. rewrite H. reflexivity.
Qed.

Lemma apply_op_makes_present g o : present (apply_op g o) o.
Proof.
  destruct o as [n oc|e]; simpl.
  - destruct (has_node g n) eqn:H; [apply has_node_true; exact H|].
    simpl. apply in_or_app. right. left. reflexivity.
  - destruct (has_edge g e) eqn:H; [apply has_edge_true; exact H|].
    simpl. apply in_or_app. right. left. reflexivity.
Qed.

Lemma apply_op_nodes g o n :
  In n (nodes (apply_op g o)) <-> In n (nodes g) \/ merged_node n o.
Proof.
  unfold merged_node. destruct o as [m oc|e]; simpl.
  - destruct (has_node g m) eqn:H.
    + split; [auto|]. intros [Hin|[oc' Heq]]; [exact Hin|].
      injection Heq as <- _. apply has_node_true. exact H.
    + simpl. rewrite in_app_iff. simpl. split.
      * intros [Hin|[<-|[]]]; eauto.
      * intros [Hin|[oc' Heq]]; [auto|]. injection Heq as <- _. auto.
  - destruct (has_edge g e); simpl; split; auto;
      intros [Hin|[oc' Heq]]; auto; discriminate.
Qed.

Lemma apply_op_edges g o e :
  In e (edges (apply_op g o)) <-> In e (edges g) \/ o = MergeEdge e.
Proof.
  destruct o as [m oc|e']; simpl.
  - destruct (has_node g m); simpl; split; auto;
      intros [Hin|Heq]; auto; discriminate.
  - destruct (has_edge g e') eqn:H.
    + split; [auto|]. intros [Hin|Heq]; [exact Hin|].
      injection Heq as <-. apply has_edge_true. exact H.
    + simpl. rewrite in_app_iff. simpl. split.
      * intros [Hin|[<-|[]]]; auto.
      * intros [Hin|Heq]; [auto|]. injection Heq as <-. auto.
Qed.

Lemma apply_op_monotone g o o' : present g o -> present (apply_op g o') o.
Proof.
  destruct o as [n oc|e]; simpl; intros H.
  - apply apply_op_nodes. auto.
  - apply apply_op_edges. auto.
Qed.

Lemma NoDup_snoc (A : Type) (l : list A) (a : A) :
  NoDup l -> ~ In a l -> NoDup (l ++ [a])%list.
Proof.
  intros Hl Ha. apply NoDup_app; [exact Hl | repeat constructor; intros [] |].
  intros x Hx [<-|[]]. contradiction.
Qed.

Lemma apply_op_NoDup_nodes g o : NoDup (nodes g) -> NoDup (nodes (apply_op g o)).
Proof.
  destruct o as [n oc|e]; simpl.
  - destruct (has_node g n) eqn:H; [auto|]. simpl. intros Hn.
    apply NoDup_snoc; [exact Hn | apply has_node_false; exact H].
  - destruct (has_edge g e); auto.
Qed.

Lemma apply_op_NoDup_edges g o : NoDup (edges g) -> NoDup (edges (apply_op g o)).
Proof.
  destruct o as [n oc|e]; simpl.
  - destruct (has_node g n); auto.
  - destruct (has_edge g e) eqn:H; [auto|]. simpl. intros Hn.
    apply NoDup_snoc; [exact Hn | apply has_edge_false; exact H].
Qed.

Lemma apply_op_value_kept g o n :
  In n (nodes g) -> metric_value (apply_op g o) n = metric_value g n.
Proof.
  intros Hn. destruct o as [m oc|e]; simpl.
  - destruct (has_node g m) eqn:H; [reflexivity|].
    destruct oc as [f|]; [|reflexivity].
    unfold metric_value. simpl.
    destruct (node_eq_dec n m) as [->|_]; [|reflexivity].
    apply has_node_false in H. contradiction.
  - destruct (has_edge g e); reflexivity.
Qed.

Lemma apply_op_value_none g o n :
  metric_value g n = None ->
  (forall f, o <> MergeNode n (Some f)) ->
  metric_value (apply_op g o) n = None.
Proof.
  intros Hv Ho. destruct o as [m oc|e]; simpl.
  - destruct (has_node g m); [exact Hv|].
    destruct oc as [f|]; [|exact Hv].
    unfold metric_value. simpl.
    destruct (node_eq_dec n m) as [->|_]; [|exact Hv].
    exfalso. apply (Ho f). reflexivity.
  - destruct (has_edge g e); exact Hv.
Qed.

Lemma run_ops_nodes ops : forall g n,
  In n (nodes (run_ops ops g)) <->
  In n (nodes g) \/ exists o, In o ops /\ merged_node n o.
Proof.
  induction ops as [|o ops IH]; simpl; intros g n.
  - split; [auto | intros [H|[o [[] _]]]; exact H].
  - unfold run_ops in *. simpl. rewrite IH, apply_op_nodes. split.
    + intros [[H|H]|[o' [Ho' Hm]]]; eauto 6.
    + intros [H|[o' [[<-|Ho'] Hm]]]; eauto 6.
Qed.

Lemma run_ops_edges ops : forall g e,
  In e (edges (run_ops ops g)) <-> In e (edges g) \/ In (MergeEdge e) ops.
Proof.
  induction ops as [|o ops IH]; simpl; intros g e.
  - tauto.
  - unfold run_ops in *. simpl. rewrite IH, apply_op_edges. tauto.
Qed.

Lemma run_ops_NoDup ops : forall g,
  (NoDup (nodes g) -> NoDup (nodes (run_ops ops g))) /\
  (NoDup (edges g) -> NoDup (edges (run_ops ops g))).
Proof.
  induction ops as [|o ops IH]; simpl; intros g; [auto|].
  unfold run_ops in *. simpl. destruct (IH (apply_op g o)) as [Hn He].
  split; intros H.
  - apply Hn, apply_op_NoDup_nodes, H.
  - apply He, apply_op_NoDup_edges, H.
Qed.

Lemma run_ops_value_kept ops : forall g n,
  In n (nodes g) -> metric_value (run_ops ops g) n = metric_value g n.
Proof.
  induction ops as [|o ops IH]; simpl; intros g n H; [reflexivity|].
  unfold run_ops in *. simpl. rewrite IH.
  - apply apply_op_value_kept. exact H.
  - apply apply_op_nodes. auto.
Qed.

Lemma run_ops_value_none ops : forall g n,
  metric_value g n = None ->
  (forall f, ~ In (MergeNode n (Some f)) ops) ->
  metric_value (run_ops ops g) n = None.
Proof.
  induction ops as [|o ops IH]; simpl; intros g n Hv Ho; [exact Hv|].
  unfold run_ops in *. simpl. apply IH.
  - apply apply_op_value_none; [exact Hv|].
    intros f ->. apply (Ho f). auto.
  - intros f Hin. apply (Ho f). auto.
Qed.

Lemma run_ops_all_present ops : forall g,
  (forall o, In o ops -> present g o) -> run_ops ops g = g.
Proof.
  induction ops as [|o ops IH]; simpl; intros g H; [reflexivity|].
  unfold run_ops in *. simpl.
  rewrite (apply_op_present g o) by auto. apply IH. auto.
Qed.

Lemma run_ops_monotone ops : forall g o,
  present g o -> present (run_ops ops g) o.
Proof.
  induction ops as [|o' ops IH]; simpl; intros g o H; [exact H|].
  unfold run_ops in *. simpl. apply IH, apply_op_monotone, H.
Qed.

Lemma run_ops_makes_present ops : forall g o,
  In o ops -> present (run_ops ops g) o.
Proof.
  induction ops as [|o' ops IH]; simpl; intros g o H; [destruct H|].
  unfold run_ops in *. simpl. destruct H as [->|H].
  - apply (run_ops_monotone ops). apply apply_op_makes_present.
  - apply IH. exact H.
Qed.

Lemma run_ops_twice ops g : run_ops ops (run_ops ops g) = run_ops ops g.
Proof.
  apply run_ops_all_present. intros o H. apply run_ops_makes_present. exact H.
Qed.

End GraphFacts.

(** ** The query on a batch of rows *)

Section CypherFacts.

Import Cypher.

Variable parse_int : string -> option Z.
Variable parse_float : string -> option float.

Lemma collect_inr_in (A B : Type) (f : A -> error + list B) l : forall xs x,
  collect f l = inr xs ->
  (In x xs <-> exists a ys, In a l /\ f a = inr ys /\ In x ys).
Proof.
  induction l as [|a l IH]; simpl; intros xs x H.
  - injection H as <-. split; [intros [] | intros (a & ys & [] & _)].
  - destruct (f a) as [e|ys] eqn:Hf; [discriminate|].
    destruct (collect f l) as [e|zs] eqn:Hc; [discriminate|].
    injection H as <-. rewrite in_app_iff, (IH zs x eq_refl). split.
    + intros [Hx|(b & ws & Hb & Hfb & Hx)]; [exists a, ys; auto|].
      exists b, ws. auto.
    + intros (b & ws & [<-|Hb] & Hfb & Hx).
      * left. congruence.
      * right. exists b, ws. auto.
Qed.

Lemma collect_inr_each (A B : Type) (f : A -> error + list B) l : forall xs a,
  collect f l = inr xs -> In a l -> exists ys, f a = inr ys.
Proof.
  induction l as [|b l IH]; simpl; intros xs a H Ha; [destruct Ha|].
  destruct (f b) as [e|ys] eqn:Hf; [discriminate|].
  destruct (collect f l) as [e|zs] eqn:Hc; [discriminate|].
  destruct Ha as [<-|Ha]; eauto.
Qed.

Lemma collect_same_outcome (A B : Type) (f f' : A -> error + list B) l :
  (forall a, same_outcome (f a) (f' a)) ->
  same_outcome (collect f l) (collect f' l).
Proof.
  intros H. induction l as [|a l IH]; simpl; [exact I|].
  specialize (H a). unfold same_outcome in *.
  destruct (f a), (f' a); try contradiction; [exact H|].
  destruct (collect f l), (collect f' l); try contradiction; auto.
Qed.

Lemma key_of_inr label key v v' :
  key_of label key v = inr v' -> v' = v /\ v <> VNull.
Proof.
  destruct v; simpl; intros H; try discriminate;
    injection H as <-; split; congruence.
Qed.

Lemma key_of_not_null label key v : v <> VNull -> key_of label key v = inr v.
Proof. destruct v; simpl; congruence. Qed.

Lemma metric_columns_in r c :
  In c (metric_columns r) <-> In c (Py.keys r) /\ ~ In c reserved.
Proof.
  unfold metric_columns, is_reserved. rewrite filter_In.
  destruct (in_dec string_dec c reserved); simpl; split.
  - intros [_ H]. discriminate.
  - intros [_ H]. contradiction.
  - intros [H _]. auto.
  - intros [H _]. auto.
Qed.

Lemma prop_not_null_key r k : prop r k <> VNull -> In k (Py.keys r).
Proof.
  unfold prop. destruct (Py.get k r) eqn:H; [|congruence].
  intros _. eapply get_in_keys. exact H.
Qed.

Lemma metric_ops_inr r county a c ys :
  metric_ops parse_int parse_float r county a c = inr ys ->
  exists year origin,
    toInteger parse_int (prop r "Year") = Some year /\
    a = Some origin /\
    ys = [MergeNode (Metrics c year county) (toFloat parse_float (prop r c));
          MergeEdge (origin, REPORTS, Metrics c year county)].
Proof.
  unfold metric_ops.
  destruct (toInteger parse_int (prop r "Year")) as [year|]; [|discriminate].
  destruct a as [origin|]; [|discriminate].
  intros H. injection H as <-. eauto.
Qed.

Lemma row_ops_inr qu r ops :
  row_ops parse_int parse_float qu r = inr ops ->
  prop r "State" <> VNull /\ prop r "Region" <> VNull /\
  prop r "County" <> VNull /\ prop r "county_id" <> VNull /\
  exists ms,
    collect (metric_ops parse_int parse_float r (prop r "County") (subsector qu))
            (metric_columns r) = inr ms /\
    ops = (hierarchy_ops qu (prop r "State") (prop r "Region")
                         (prop r "County") (prop r "county_id") ++ ms)%list.
Proof.
  unfold row_ops.
  destruct (key_of "State" "name" (prop r "State")) as [|v1] eqn:H1;
    [discriminate|].
  destruct (key_of "EDD" "name" (prop r "Region")) as [|v2] eqn:H2;
    [discriminate|].
  destruct (key_of "County" "name" (prop r "County")) as [|v3] eqn:H3;
    [discriminate|].
  destruct (key_of "County" "fips_id" (prop r "county_id")) as [|v4] eqn:H4;
    [discriminate|].
  apply key_of_inr in H1 as [-> N1], H2 as [-> N2], H3 as [-> N3],
                      H4 as [-> N4].
  destruct (collect _ (metric_columns r)) as [|ms] eqn:Hc; [discriminate|].
  intros H. injection H as <-. eauto 10.
Qed.

Lemma hierarchy_ops_no_metric qu s rg c f m y cty oc :
  ~ In (MergeNode (Metrics m y cty) oc) (hierarchy_ops qu s rg c f).
Proof.
  unfold hierarchy_ops. rewrite in_app_iff. simpl.
  destruct (q_subsector qu); simpl; intuition discriminate.
Qed.

(** The Metrics upserts of a row that goes through. *)
Lemma row_metric_nodes qu r ops m y cty oc :
  row_ops parse_int parse_float qu r = inr ops ->
  (In (MergeNode (Metrics m y cty) oc) ops <->
   In m (metric_columns r) /\
   toInteger parse_int (prop r "Year") = Some y /\
   prop r "County" = cty /\
   oc = toFloat parse_float (prop r m)).
Proof.
  intros H. apply row_ops_inr in H as (_ & _ & _ & _ & ms & Hc & ->).
  rewrite in_app_iff, (collect_inr_in _ _ _ Hc). split.
  - intros [Hh|(c & ys & Hin & Hf & Hx)].
    + exfalso. eapply hierarchy_ops_no_metric. exact Hh.
    + apply metric_ops_inr in Hf as (year & origin & Hy & _ & ->).
      destruct Hx as [Hx|[Hx|[]]]; [|discriminate].
      injection Hx as <- <- <- <-. auto.
  - intros (Hin & Hy & <- & ->). right.
    edestruct collect_inr_each as [ys Hf]; [exact Hc | exact Hin |].
    exists m, ys. split; [exact Hin|]. split; [exact Hf|].
    apply metric_ops_inr in Hf as (year & origin & Hy' & _ & ->).
    left. congruence.
Qed.

Lemma batch_metric_nodes qu rows ops m y cty oc :
  batch_ops parse_int parse_float qu rows = inr ops ->
  (In (MergeNode (Metrics m y cty) oc) ops <->
   exists r, In r rows /\
     In m (metric_columns r) /\
     toInteger parse_int (prop r "Year") = Some y /\
     prop r "County" = cty /\
     oc = toFloat parse_float (prop r m)).
Proof.
  unfold batch_ops. intros H. rewrite (collect_inr_in _ _ _ H). split.
  - intros (r & ys & Hr & Hf & Hx). exists r. split; [exact Hr|].
    eapply row_metric_nodes; [exact Hf | exact Hx].
  - intros (r & Hr & Hx).
    edestruct collect_inr_each as [ys Hf]; [exact H | exact Hr |].
    exists r, ys. split; [exact Hr|]. split; [exact Hf|].
    eapply row_metric_nodes; [exact Hf | exact Hx].
Qed.

Lemma session_run_inr text rows g g' :
  session_run parse_int parse_float text rows g = inr g' ->
  exists qu ops,
    parse_query text = Some qu /\
    batch_ops parse_int parse_float qu rows = inr ops /\
    g' = run_ops ops g.
Proof.
  unfold session_run. destruct (parse_query text) as [qu|]; [|discriminate].
  destruct (batch_ops parse_int parse_float qu rows) as [|ops] eqn:Hb;
    [discriminate|].
  intros H. injection H as <-. eauto.
Qed.

Lemma collect_inl (A B : Type) (f : A -> error + list B) l a e :
  In a l -> f a = inl e -> exists e', collect f l = inl e'.
Proof.
  intros Ha Hf. induction l as [|b l IH]; [destruct Ha|]. simpl.
  destruct (f b) as [e0|ys] eqn:Hb; [eauto|].
  destruct Ha as [->|Ha]; [congruence|].
  destruct (IH Ha) as [e' ->]. eauto.
Qed.

Lemma hierarchy_ops_no_value qu s rg c f n v :
  ~ In (MergeNode n (Some v)) (hierarchy_ops qu s rg c f).
Proof.
  unfold hierarchy_ops. rewrite in_app_iff. simpl.
  destruct (q_subsector qu); simpl; intuition discriminate.
Qed.

(** Only a Metrics upsert carries a value to set. *)
Lemma batch_valued_nodes qu rows ops n v :
  batch_ops parse_int parse_float qu rows = inr ops ->
  In (MergeNode n (Some v)) ops ->
  exists r c y, In r rows /\ In c (metric_columns r) /\
    toInteger parse_int (prop r "Year") = Some y /\
    n = Metrics c y (prop r "County") /\
    toFloat parse_float (prop r c) = Some v.
Proof.
  unfold batch_ops. intros H Hin.
  apply (collect_inr_in _ _ _ H) in Hin as (r & ys & Hr & Hf & Hx).
  apply row_ops_inr in Hf as (_ & _ & _ & _ & ms & Hc & ->).
  apply in_app_iff in Hx as [Hx|Hx].
  - exfalso. eapply hierarchy_ops_no_value. exact Hx.
  - apply (collect_inr_in _ _ _ Hc) in Hx as (c & zs & Hcin & Hm & Hx).
    apply metric_ops_inr in Hm as (y & origin & Hy & _ & ->).
    destruct Hx as [Hx|[Hx|[]]]; [|discriminate].
    injection Hx as <- Hv. exists r, c, y. auto.
Qed.

(** Every metric column of every row of a batch that goes through
    has its Metrics node in the store afterwards. *)
Lemma metric_node_created text rows g g' r c :
  session_run parse_int parse_float text rows g = inr g' ->
  In r rows -> In c (metric_columns r) ->
  exists y, toInteger parse_int (prop r "Year") = Some y /\
            In (Metrics c y (prop r "County")) (nodes g').
Proof.
  intros H Hr Hc. apply session_run_inr in H as (qu & ops & _ & Hb & ->).
  edestruct collect_inr_each as [ys Hrow]; [exact Hb | exact Hr |].
  pose proof Hrow as Hrow'.
  apply row_ops_inr in Hrow' as (_ & _ & _ & _ & ms & Hms & _).
  edestruct collect_inr_each as [zs Hm]; [exact Hms | exact Hc |].
  apply metric_ops_inr in Hm as (y & origin & Hy & _ & _).
  exists y. split; [exact Hy|]. apply run_ops_nodes. right.
  exists (MergeNode (Metrics c y (prop r "County"))
                    (toFloat parse_float (prop r c))).
  split; [|eexists; reflexivity].
  eapply batch_metric_nodes; [exact Hb|]. exists r. auto.
Qed.

Lemma row_ops_year_fatal qu r :
  toInteger parse_int (prop r "Year") = None ->
  exists e, row_ops parse_int parse_float qu r = inl e.
Proof.
  intros Hy. destruct (row_ops parse_int parse_float qu r) as [e|ops] eqn:H;
    [eauto|].
  exfalso. apply row_ops_inr in H as (_ & _ & _ & Hid & ms & Hc & _).
  assert (Hin : In "county_id" (metric_columns r)).
  { apply metric_columns_in. split; [apply prop_not_null_key; exact Hid|].
    unfold reserved. simpl. intuition discriminate. }
  edestruct collect_inr_each as [zs Hm]; [exact Hc | exact Hin |].
  apply metric_ops_inr in Hm as (y & _ & Hy' & _). congruence.
Qed.

Lemma row_ops_same_outcome (parse_float' : string -> option float) qu r :
  same_outcome (row_ops parse_int parse_float qu r)
               (row_ops parse_int parse_float' qu r).
Proof.
  unfold row_ops.
  destruct (key_of "State" "name" (prop r "State")); [reflexivity|].
  destruct (key_of "EDD" "name" (prop r "Region")); [reflexivity|].
  destruct (key_of "County" "name" (prop r "County")); [reflexivity|].
  destruct (key_of "County" "fips_id" (prop r "county_id")); [reflexivity|].
  match goal with
  | |- context [collect ?f ?l] =>
      match goal with
      | |- context [collect ?f' l] =>
          tryif constr_eq f f' then fail else
            pose proof (@collect_same_outcome _ _ f f' l) as Hs
      end
  end.
  unfold same_outcome in *.
  match type of Hs with ?P -> _ => assert (Hp : P) end.
  { intros c. unfold metric_ops.
    destruct (toInteger parse_int (prop r "Year")); [|reflexivity].
    destruct (subsector qu); [exact I | reflexivity]. }
  specialize (Hs Hp).
  destruct (collect _ (metric_columns r)), (collect _ (metric_columns r));
    try contradiction; auto.
Qed.



Lemma collect_all_ok (A B : Type) (f : A -> error + list B) l :
  (forall a, In a l -> exists ys, f a = inr ys) ->
  exists xs, collect f l = inr xs.
Proof.
  induction l as [|a l IH]; simpl; intros H; [eauto|].
  destruct (H a (or_introl eq_refl)) as [ys ->].
  destruct IH as [xs ->]; [intros b Hb; apply H; auto|]. eauto.
Qed.

Lemma collect_app (A B : Type) (f : A -> error + list B) l1 : forall l2 xs,
  collect f (l1 ++ l2)%list = inr xs ->
  exists xs1 xs2,
    collect f l1 = inr xs1 /\ collect f l2 = inr xs2 /\
    xs = (xs1 ++ xs2)%list.
Proof.
  induction l1 as [|a l1 IH]; simpl; intros l2 xs H.
  - exists [], xs. auto.
  - destruct (f a) as [|ys]; [discriminate|].
    destruct (collect f (l1 ++ l2)) as [|zs] eqn:Hc; [discriminate|].
    injection H as <-.
    destruct (IH l2 zs Hc) as (xs1 & xs2 & -> & -> & ->).
    exists (ys ++ xs1)%list, xs2. rewrite app_assoc. auto.
Qed.

(** Every upsert of every row of a batch that goes through is held
    by the store afterwards. *)
Lemma row_ops_present text rows g g' qu r ys o :
  session_run parse_int parse_float text rows g = inr g' ->
  parse_query text = Some qu ->
  In r rows -> row_ops parse_int parse_float qu r = inr ys -> In o ys ->
  present g' o.
Proof.
  intros H Hq Hr Hys Ho.
  apply session_run_inr in H as (qu' & ops & Hq' & Hb & ->).
  assert (qu' = qu) by congruence. subst qu'.
  apply run_ops_makes_present.
  apply (collect_inr_in _ _ _ Hb). exists r, ys. auto.
Qed.

Lemma row_needs_sub_sector qu r ys :
  row_ops parse_int parse_float qu r = inr ys ->
  exists name, q_subsector qu = Some name.
Proof.
  intros H. apply row_ops_inr in H as (_ & _ & _ & Hid & ms & Hc & _).
  assert (Hin : In "county_id" (metric_columns r)).
  { apply metric_columns_in. split; [apply prop_not_null_key; exact Hid|].
    unfold reserved. simpl. intuition discriminate. }
  edestruct collect_inr_each as [zs Hm]; [exact Hc | exact Hin |].
  apply metric_ops_inr in Hm as (y & origin & _ & Ho & _).
  unfold subsector in Ho. destruct (q_subsector qu); [eauto | discriminate].
Qed.

End CypherFacts.

(** ** The script on concrete tables *)



Lemma long_name_lookup_witness :
  fst (main neo4j_run [("A_B_C", ohio)] fresh) = inl (KeyError "A_B").
Proof.
  destruct (long_name_lookup neo4j_run [("A_B_C", ohio)] "A_B_C")
    as (entry & He & _ & _ & H).
  - vm_compute. auto.
  - vm_compute. lia.
  - vm_compute in He. injection He as <-.
    destruct (H (fun Hin => match Hin with
                            | or_introl Heq => ltac:(discriminate Heq)
                            | or_intror Hf => match Hf with end
                            end) fresh) as (_ & Hk).
    apply (Hk [] [] fresh); reflexivity.
Defined.

(** C10 does not hold as stated: with A_B loaded next to A_B_C the
    run ends without any error, A_B being the table that is read. *)
Lemma long_name_counterexample :
  In "A_B_C" (Py.keys [("A_B_C", ohio); ("A_B", ohio)]) /\
  3 <= segments "A_B_C" /\
  fst (main neo4j_run [("A_B_C", ohio); ("A_B", ohio)] fresh) = inr tt /\
  ~ exists key,
      fst (main neo4j_run [("A_B_C", ohio); ("A_B", ohio)] fresh)
      = inl (KeyError key).
Proof.
  split; [simpl; auto|]. split; [vm_compute; lia|].
  split; [vm_compute; reflexivity|].
  intros [key H]. vm_compute in H. discriminate.
Qed.

(** ** The names inside the query text *)

Lemma strip_prefix_app p s : Cypher.strip_prefix p (p ++ s) = Some s.
Proof.
  induction p as [|c p IH]; simpl; [destruct s; reflexivity|].
  rewrite Ascii.eqb_refl. exact IH.
Qed.

Lemma truthy_escape s : Py.truthy (escape s) = Py.truthy s.
Proof.
  destruct s as [|c s]; [reflexivity|]. unfold escape. simpl.
  destruct (Ascii.eqb c quote); reflexivity.
Qed.

(** A name without backslash is read back from its escaped form, up
    to the closing quote of the template. *)
Lemma read_literal_escape s rest :
  Py.mem backslash s = false ->
  Cypher.read_literal (escape s ++ quote_s ++ rest) = Some (s, rest).
Proof.
  change (quote_s ++ rest) with (String quote rest).
  induction s as [|c s IH]; intros H.
  - reflexivity.
  - simpl in H. apply orb_false_iff in H as [Hc Hs].
    specialize (IH Hs). unfold escape in *. simpl.
    destruct (Ascii.eqb c quote) eqn:Hq.
    + apply Ascii.eqb_eq in Hq. subst c. simpl. rewrite IH. reflexivity.
    + simpl. rewrite Hq, Hc, IH. reflexivity.
Qed.

Lemma append_assoc_r (a b c : string) : (a ++ b) ++ c = a ++ b ++ c.
Proof.
  induction a as [|x a IH]; simpl; [reflexivity | rewrite IH; reflexivity].
Qed.

(** For names without backslash the text is read as the query the
    loader means: the Sector key is the sector name, and the
    Sub_Sector clause is there exactly when the other name is not
    empty. *)
Lemma parse_query_text sub sec :
  Py.mem backslash sub = false -> Py.mem backslash sec = false ->
  Cypher.parse_query (query_text (escape sub) (escape sec))
  = Some {| Cypher.q_sector := sec;
            Cypher.q_subsector := if Py.truthy sub then Some sub else None |}.
Proof.
  intros Hsub Hsec. unfold Cypher.parse_query, query_text, Cypher.expect.
  rewrite strip_prefix_app, (read_literal_escape _ _ Hsec), strip_prefix_app.
  rewrite truthy_escape. destruct (Py.truthy sub) eqn:Ht.
  - rewrite !append_assoc_r.
    rewrite strip_prefix_app, (read_literal_escape _ _ Hsub).
    rewrite !strip_prefix_app. unfold Cypher.finish.
    rewrite String.eqb_refl. reflexivity.
  - vm_compute. reflexivity.
Qed.

(** C7, on the script as written.  The text sent depends on the two
    names only, the rows travel beside it; a quote inside a name is
    read back as part of the name.  A name ending in a backslash is
    left as it is by the replacement: the backslash then escapes the
    closing quote of the template, the literal has no end where the
    template puts it, the text is no longer the query, and the load
    fails.  A backslash before a quote ends the literal inside the
    name. *)
Theorem escape_leaves_backslash :
  (forall (E : Type) (run : string -> list row -> graph -> E + graph)
          df sub sec g,
     load_dataframe run df sub sec g
     = run (query_text (escape (Py.str sub)) (escape (Py.str sec)))
           (to_dict_records df) g) /\
  Cypher.read_literal (escape "Retail's" ++ quote_s ++ "})")
  = Some ("Retail's", "})") /\
  escape "Retail\" = "Retail\" /\
  Cypher.read_literal (escape "Retail\" ++ quote_s ++ "})") = None /\
  Cypher.parse_query (query_text (escape "None") (escape "Retail\")) = None /\
  load_dataframe neo4j_run ohio None (Some "Retail\") empty_graph
  = inl Cypher.Malformed /\
  Cypher.read_literal (escape "\'" ++ quote_s ++ "})") = Some ("\", "'})").
Proof.
  split; [reflexivity|]. vm_compute. repeat split.
Qed.

(** ** Loads under names without backslash *)

Section CleanLoads.

Import Cypher.

Variable parse_int : string -> option Z.
Variable parse_float : string -> option float.

Lemma toInteger_reads v y :
  toInteger parse_int v = Some y <-> reads_as_integer parse_int v y.
Proof.
  destruct v as [|z|[m e]|s]; simpl.
  - split; [discriminate | contradiction].
  - split; [intros H; injection H as <-; reflexivity | intros ->; reflexivity].
  - split; [intros H; injection H as <-; reflexivity | intros ->; reflexivity].
  - apply iff_refl.
Qed.

(** Under such names a load that goes through has run the upserts of
    the query with the two names as keys. *)
Lemma clean_load_inr df sub sec g g' :
  Py.mem backslash (Py.str sub) = false ->
  Py.mem backslash (Py.str sec) = false ->
  load_dataframe (session_run parse_int parse_float) df sub sec g = inr g' ->
  exists ops,
    batch_ops parse_int parse_float
      {| q_sector := Py.str sec;
         q_subsector := if Py.truthy (Py.str sub)
                        then Some (Py.str sub) else None |}
      (to_dict_records df) = inr ops /\
    g' = run_ops ops g.
Proof.
  intros Hsub Hsec H. unfold load_dataframe in H.
  apply session_run_inr in H as (qu & ops & Hq & Hb & ->).
  rewrite (parse_query_text _ _ Hsub Hsec) in Hq. injection Hq as <-.
  eauto.
Qed.

Lemma clean_load_names df sub sec g g' r :
  Py.mem backslash (Py.str sub) = false ->
  Py.mem backslash (Py.str sec) = false ->
  load_dataframe (session_run parse_int parse_float) df sub sec g = inr g' ->
  In r (to_dict_records df) ->
  In (Sector (Py.str sec)) (nodes g') /\
  In (Sub_Sector (Py.str sub)) (nodes g') /\
  In (Sector (Py.str sec), HAS_SUB_SECTOR, Sub_Sector (Py.str sub)) (edges g').
Proof.
  intros Hsub Hsec H Hr.
  destruct (clean_load_inr _ _ _ _ Hsub Hsec H) as (ops & Hb & ->).
  edestruct collect_inr_each as [ys Hys]; [exact Hb | exact Hr |].
  destruct (row_needs_sub_sector _ _ _ _ Hys) as [name Hname].
  simpl in Hname.
  assert (Hn : name = Py.str sub)
    by (destruct (Py.truthy (Py.str sub)); congruence).
  subst name.
  assert (Hp : forall o, In o ys -> present (run_ops ops g) o).
  { intros o Ho. apply run_ops_makes_present.
    apply (collect_inr_in _ _ _ Hb). eauto. }
  apply row_ops_inr in Hys as (_ & _ & _ & _ & ms & _ & ->).
  assert (Hh : forall o,
             In o [MergeNode (Sector (Py.str sec)) None;
                   MergeNode (Sub_Sector (Py.str sub)) None;
                   MergeEdge (Sector (Py.str sec), HAS_SUB_SECTOR,
                              Sub_Sector (Py.str sub))] ->
             present (run_ops ops g) o).
  { intros o Ho. apply Hp. apply in_or_app. left.
    unfold hierarchy_ops. simpl q_subsector. simpl q_sector.
    rewrite Hname. simpl in *. intuition. }
  split; [|split].
  - apply (Hh (MergeNode (Sector (Py.str sec)) None)). simpl. auto.
  - apply (Hh (MergeNode (Sub_Sector (Py.str sub)) None)). simpl. auto.
  - apply (Hh (MergeEdge (Sector (Py.str sec), HAS_SUB_SECTOR,
                          Sub_Sector (Py.str sub)))). simpl. auto.
Qed.

(** C1, as the script has it.  For a routing entry that maps sector
    [i] to a sub-sector [b] that is not empty, the loop loads the
    table named [i], underscore, [b], handing [i] over as the
    sub-sector name and [b] as the sector name; when the load goes
    through for a frame with a line, the store holds the Sector node
    keyed [b], the Sub_Sector node keyed [i] and the relationship
    from the first to the second: the second segment of the name
    keys the Sector node and the first the Sub_Sector node. *)
Theorem routing_entry_upserts
        (data_dict : Py.dict DataFrame) (sector_dict : Py.dict (option string))
        (i b : string) (df : DataFrame) (w : world) :
  Py.get i sector_dict = Some (Some b) ->
  Py.truthy b = true ->
  Py.get (i ++ "_" ++ b) data_dict = Some df ->
  ingest (session_run parse_int parse_float) data_dict sector_dict i w
  = loader_load_dataframe (session_run parse_int parse_float)
                          df (Some i) (Some b) w /\
  (Py.mem backslash i = false -> Py.mem backslash b = false ->
   forall g' r,
     load_dataframe (session_run parse_int parse_float)
                    df (Some i) (Some b) (db w) = inr g' ->
     In r (to_dict_records df) ->
     In (Sector b) (nodes g') /\ In (Sub_Sector i) (nodes g') /\
     In (Sector b, HAS_SUB_SECTOR, Sub_Sector i) (edges g')).
Proof.
  intros Hi Hb Hdf. split.
  - rewrite (ingest_unfold _ data_dict sector_dict i w Hi).
    unfold table_key, passed_sub_sector_name, passed_sector_name.
    rewrite Hb, Hdf. reflexivity.
  - intros Hci Hcb g' r H Hr.
    apply (clean_load_names df (Some i) (Some b) (db w) r Hci Hcb H Hr).
Qed.

(** C4.  When a load under names without backslash goes through,
    each column of each row outside the four reserved names has its
    Metrics node in the store, keyed by the column name, the integer
    the Year cell stands for and the County value; every Metrics node
    the load adds comes from such a column; a key is held by one node
    only; and county_id is outside the reserved names. *)
Theorem metric_columns_spec df sub sec g g' :
  Py.mem backslash (Py.str sub) = false ->
  Py.mem backslash (Py.str sec) = false ->
  load_dataframe (session_run parse_int parse_float) df sub sec g = inr g' ->
  (forall r c, In r (to_dict_records df) -> In c (Py.keys r) ->
     ~ In c reserved ->
     exists y, reads_as_integer parse_int (prop r "Year") y /\
               In (Metrics c y (prop r "County")) (nodes g')) /\
  (forall m y cty, In (Metrics m y cty) (nodes g') ->
     In (Metrics m y cty) (nodes g) \/
     exists r, In r (to_dict_records df) /\ In m (Py.keys r) /\
               ~ In m reserved /\
               reads_as_integer parse_int (prop r "Year") y /\
               prop r "County" = cty) /\
  (NoDup (nodes g) -> NoDup (nodes g')) /\
  reserved = ["State"; "Region"; "County"; "Year"] /\
  ~ In "county_id" reserved.
Proof.
  intros Hsub Hsec H.
  destruct (clean_load_inr _ _ _ _ Hsub Hsec H) as (ops & Hb & Hg).
  unfold load_dataframe in H. split; [|split; [|split; [|split]]].
  - intros r c Hr Hc Hres.
    edestruct metric_node_created as (y & Hy & Hin);
      [exact H | exact Hr | apply metric_columns_in; eauto |].
    exists y. split; [apply toInteger_reads; exact Hy | exact Hin].
  - intros m y cty Hin. subst g'.
    apply run_ops_nodes in Hin as [Hin|(o & Ho & oc & ->)]; [auto|].
    right. eapply batch_metric_nodes in Ho; [|exact Hb].
    destruct Ho as (r & Hr & Hc & Hy & Hcty & _).
    apply metric_columns_in in Hc as [Hk Hres].
    apply toInteger_reads in Hy. eauto 10.
  - subst g'. apply run_ops_NoDup.
  - reflexivity.
  - unfold reserved. simpl. intros [H0|[H0|[H0|[H0|[]]]]]; discriminate.
Qed.

(** C5.  An upsert that creates a Metrics node sets its value, and
    upserting the same key again with another value leaves it; no
    list of upserts, and so no later load under names without
    backslash, changes the value of a node the store already holds. *)
Theorem first_write_wins :
  (forall g n v v',
     has_node g n = false ->
     metric_value (apply_op g (MergeNode n (Some v))) n = Some v /\
     metric_value (apply_op (apply_op g (MergeNode n (Some v)))
                            (MergeNode n (Some v'))) n = Some v) /\
  (forall ops g n,
     In n (nodes g) -> metric_value (run_ops ops g) n = metric_value g n) /\
  (forall df sub sec g g' n,
     Py.mem backslash (Py.str sub) = false ->
     Py.mem backslash (Py.str sec) = false ->
     In n (nodes g) ->
     load_dataframe (session_run parse_int parse_float) df sub sec g = inr g' ->
     metric_value g' n = metric_value g n).
Proof.
  split; [|split].
  - intros g n v v' H.
    assert (Hv : metric_value (apply_op g (MergeNode n (Some v))) n = Some v).
    { simpl. rewrite H. unfold metric_value. simpl.
      destruct (node_eq_dec n n); congruence. }
    split; [exact Hv|]. rewrite apply_op_value_kept; [exact Hv|].
    apply (apply_op_makes_present g (MergeNode n (Some v))).
  - intros ops g n H. apply run_ops_value_kept. exact H.
  - intros df sub sec g g' n Hsub Hsec Hn H.
    destruct (clean_load_inr _ _ _ _ Hsub Hsec H) as (ops & _ & ->).
    apply run_ops_value_kept. exact Hn.
Qed.

(** C6.  Under names without backslash, loading the same frame under
    the same names into the store a first load produced goes through
    and leaves that store as it is; a store without duplicate nodes
    or relationships stays so. *)
Theorem load_dataframe_idempotent df sub sec g g1 :
  Py.mem backslash (Py.str sub) = false ->
  Py.mem backslash (Py.str sec) = false ->
  load_dataframe (session_run parse_int parse_float) df sub sec g = inr g1 ->
  load_dataframe (session_run parse_int parse_float) df sub sec g1 = inr g1 /\
  (NoDup (nodes g) -> NoDup (nodes g1)) /\
  (NoDup (edges g) -> NoDup (edges g1)).
Proof.
  intros Hsub Hsec H.
  destruct (clean_load_inr _ _ _ _ Hsub Hsec H) as (ops & Hb & ->).
  split; [|apply run_ops_NoDup].
  unfold load_dataframe, session_run.
  rewrite (parse_query_text _ _ Hsub Hsec), Hb, run_ops_twice. reflexivity.
Qed.

(** C8, as the script has it.  Under names without backslash, a row
    whose Year is null or a text that cannot be read as an integer
    makes the load fail.  A metric cell that is a text which cannot
    be read as a float does not: how texts read as floats never
    decides between failure and success, the Metrics node of such a
    cell is upserted all the same, and when every upsert of its key
    in the batch carries a cell without a float the node ends with no
    value. *)
Theorem coercion_failures df sub sec g :
  Py.mem backslash (Py.str sub) = false ->
  Py.mem backslash (Py.str sec) = false ->
  (forall r, In r (to_dict_records df) ->
     (prop r "Year" = VNull \/
      exists s, prop r "Year" = VStr s /\ parse_int s = None) ->
     exists e,
       load_dataframe (session_run parse_int parse_float) df sub sec g
       = inl e) /\
  (forall parse_float',
     same_outcome
       (load_dataframe (session_run parse_int parse_float) df sub sec g)
       (load_dataframe (session_run parse_int parse_float') df sub sec g)) /\
  (forall g' r c s,
     load_dataframe (session_run parse_int parse_float) df sub sec g
     = inr g' ->
     In r (to_dict_records df) -> In c (metric_columns r) ->
     prop r c = VStr s -> parse_float s = None ->
     exists y, reads_as_integer parse_int (prop r "Year") y /\
       In (Metrics c y (prop r "County")) (nodes g') /\
       (metric_value g (Metrics c y (prop r "County")) = None ->
        (forall r' c', In r' (to_dict_records df) ->
           In c' (metric_columns r') ->
           Metrics c' y (prop r' "County") = Metrics c y (prop r "County") ->
           toFloat parse_float (prop r' c') = None) ->
        metric_value g' (Metrics c y (prop r "County")) = None)).
Proof.
  intros Hsub Hsec. split; [|split].
  - intros r Hr Hyear. unfold load_dataframe, session_run.
    rewrite (parse_query_text _ _ Hsub Hsec).
    assert (Hy : toInteger parse_int (prop r "Year") = None).
    { destruct Hyear as [->|(s & -> & Hs)]; [reflexivity | exact Hs]. }
    edestruct row_ops_year_fatal as [e He]; [exact Hy|].
    edestruct collect_inl as [e' He']; [exact Hr | exact He |].
    unfold batch_ops. rewrite He'. eauto.
  - intros parse_float'. unfold load_dataframe, session_run.
    rewrite (parse_query_text _ _ Hsub Hsec).
    match goal with
    | |- same_outcome
           match batch_ops _ _ ?qu ?rows with _ => _ end _ =>
        pose proof (@collect_same_outcome _ _
                      (row_ops parse_int parse_float qu)
                      (row_ops parse_int parse_float' qu) rows
                      (row_ops_same_outcome parse_int parse_float
                         parse_float' qu)) as Hs
    end.
    unfold batch_ops, same_outcome in *.
    destruct (collect _ (to_dict_records df)),
             (collect _ (to_dict_records df)); auto.
  - intros g' r c s H Hr Hc Hcell Hs.
    destruct (clean_load_inr _ _ _ _ Hsub Hsec H) as (ops & Hb & Hg).
    unfold load_dataframe in H.
    edestruct metric_node_created as (y & Hy & Hin);
      [exact H | exact Hr | exact Hc |].
    exists y. split; [apply toInteger_reads; exact Hy|].
    split; [exact Hin|]. intros Hv Hall. subst g'.
    apply run_ops_value_none; [exact Hv|].
    intros v Hv'.
    eapply batch_valued_nodes in Hv'; [|exact Hb].
    destruct Hv' as (r' & c' & y' & Hr' & Hc' & Hy' & Heq & Hsome).
    injection Heq as -> -> Hcty.
    rewrite (Hall r' c' Hr' Hc') in Hsome; [discriminate|]. congruence.
Qed.

End CleanLoads.

Lemma routing_entry_upserts_witness :
  In (Sector "Grocery") (nodes (loaded ohio (Some "Retail") (Some "Grocery")
                                       empty_graph)) /\
  In (Sub_Sector "Retail") (nodes (loaded ohio (Some "Retail") (Some "Grocery")
                                          empty_graph)).
Proof.
  destruct (@routing_entry_upserts Numerals.parse_int Numerals.parse_float
              [("Retail_Grocery", ohio)] [("Retail", Some "Grocery")]
              "Retail" "Grocery" ohio fresh eq_refl eq_refl eq_refl)
    as [_ H].
  destruct (H eq_refl eq_refl
              (loaded ohio (Some "Retail") (Some "Grocery") empty_graph)
              (first_record ohio)) as (Hs & Hb & _).
  - vm_compute. reflexivity.
  - vm_compute. auto.
  - split; [exact Hs | exact Hb].
Defined.

(** C1 does not hold as stated: for the one table Retail_Grocery the
    routing entry maps sector Retail to sub-sector Grocery and the run
    goes through, yet no Sector node is keyed Retail, no Sub_Sector
    node is keyed Grocery and no relationship joins two such nodes. *)
Lemma first_segment_does_not_key_the_sector :
  Py.get "Retail" (generate_sector_dict (Py.keys [("Retail_Grocery", ohio)]))
  = Some (Some "Grocery") /\
  fst (main neo4j_run [("Retail_Grocery", ohio)] fresh) = inr tt /\
  has_node (db (snd (main neo4j_run [("Retail_Grocery", ohio)] fresh)))
           (Sector "Retail") = false /\
  has_node (db (snd (main neo4j_run [("Retail_Grocery", ohio)] fresh)))
           (Sub_Sector "Grocery") = false /\
  has_edge (db (snd (main neo4j_run [("Retail_Grocery", ohio)] fresh)))
           (Sector "Retail", HAS_SUB_SECTOR, Sub_Sector "Grocery") = false.
Proof. vm_compute. repeat split. Qed.

Lemma metric_columns_spec_witness :
  In (Metrics "county_id" 2020 (VStr "Cuyahoga")) (nodes ohio_loaded) /\
  In (Metrics "Employment" 2020 (VStr "Cuyahoga"))
     (nodes (loaded ohio_float_year (Some "Grocery") (Some "Retail")
                    empty_graph)).
Proof.
  split.
  - assert (H : load_dataframe neo4j_run ohio (Some "Grocery") (Some "Retail")
                  empty_graph = inr ohio_loaded) by (vm_compute; reflexivity).
    destruct (@metric_columns_spec Numerals.parse_int Numerals.parse_float
                ohio (Some "Grocery") (Some "Retail") empty_graph ohio_loaded
                eq_refl eq_refl H) as (H1 & _).
    destruct (H1 (first_record ohio) "county_id") as (y & Hy & Hin).
    + vm_compute. auto.
    + vm_compute. auto 10.
    + vm_compute. intuition discriminate.
    + simpl in Hy. subst y. exact Hin.
  - assert (H : load_dataframe neo4j_run ohio_float_year (Some "Grocery")
                  (Some "Retail") empty_graph
                = inr (loaded ohio_float_year (Some "Grocery") (Some "Retail")
                              empty_graph)) by (vm_compute; reflexivity).
    destruct (@metric_columns_spec Numerals.parse_int Numerals.parse_float
                ohio_float_year (Some "Grocery") (Some "Retail") empty_graph _
                eq_refl eq_refl H) as (H1 & _).
    destruct (H1 (first_record ohio_float_year) "Employment") as (y & Hy & Hin).
    + vm_compute. auto.
    + vm_compute. auto 10.
    + vm_compute. intuition discriminate.
    + vm_compute in Hy. subst y. exact Hin.
Defined.

Lemma first_write_wins_witness :
  metric_value (loaded ohio_revised (Some "Grocery") (Some "Retail") ohio_loaded)
               (cuyahoga_2020 "Employment")
  = metric_value ohio_loaded (cuyahoga_2020 "Employment").
Proof.
  destruct (first_write_wins Numerals.parse_int Numerals.parse_float)
    as (_ & _ & H).
  apply (H ohio_revised (Some "Grocery") (Some "Retail")).
  - reflexivity.
  - reflexivity.
  - vm_compute. auto 10.
  - vm_compute. reflexivity.
Defined.

Lemma load_dataframe_idempotent_witness :
  load_dataframe neo4j_run ohio (Some "Grocery") (Some "Retail") ohio_loaded
  = inr ohio_loaded.
Proof.
  apply (@load_dataframe_idempotent Numerals.parse_int Numerals.parse_float
           ohio (Some "Grocery") (Some "Retail") empty_graph ohio_loaded
           eq_refl eq_refl).
  vm_compute. reflexivity.
Defined.

Lemma coercion_failures_witness :
  (exists e,
     load_dataframe neo4j_run ohio_no_year (Some "Grocery") (Some "Retail")
                    empty_graph = inl e) /\
  metric_value (loaded ohio_text (Some "Grocery") (Some "Retail") empty_graph)
               (cuyahoga_2020 "Employment") = None.
Proof.
  split.
  - destruct (@coercion_failures Numerals.parse_int Numerals.parse_float
                ohio_no_year (Some "Grocery") (Some "Retail") empty_graph
                eq_refl eq_refl) as (H & _).
    apply (H (first_record ohio_no_year)).
    + vm_compute. auto.
    + right. exists "n/a". split; reflexivity.
  - destruct (@coercion_failures Numerals.parse_int Numerals.parse_float
                ohio_text (Some "Grocery") (Some "Retail") empty_graph
                eq_refl eq_refl) as (_ & _ & H).
    destruct (H (loaded ohio_text (Some "Grocery") (Some "Retail") empty_graph)
                (first_record ohio_text) "Employment" "n/a")
      as (y & Hy & _ & Hv).
    + vm_compute. reflexivity.
    + vm_compute. auto.
    + vm_compute. auto 10.
    + reflexivity.
    + reflexivity.
    + simpl in Hy. subst y. apply Hv.
      * reflexivity.
      * intros r' c' [<-|[]] Hc' Heq.
        injection Heq as ->. vm_compute. reflexivity.
Defined.

(** C8 does not hold as stated: a frame whose Employment cell reads
    n/a is loaded without error, and its Metrics node is in the store
    with no value. *)
Lemma unreadable_metric_is_ingested :
  Cypher.toFloat Numerals.parse_float
    (Cypher.prop (first_record ohio_text) "Employment") = None /\
  exists g,
    load_dataframe neo4j_run ohio_text (Some "Grocery") (Some "Retail")
                   empty_graph = inr g /\
    has_node g (cuyahoga_2020 "Employment") = true /\
    metric_value g (cuyahoga_2020 "Employment") = None.
Proof.
  split; [vm_compute; reflexivity|].
  eexists. split; [vm_compute; reflexivity|].
  vm_compute. split; reflexivity.
Qed.

(* ================================================================== *)
(** * Further properties *)

(** ** Splitting names *)

Lemma split_occurrences sep s :
  List.length (Py.split sep s) = S (occurrences sep s).
Proof.
  induction s as [|c s IH]; simpl; [reflexivity|].
  destruct (Ascii.eqb c sep); simpl; [rewrite IH; reflexivity|].
  destruct (Py.split sep s); simpl in *; [discriminate | exact IH].
Qed.

Lemma split_join sep parts :
  parts <> [] ->
  (forall p, In p parts -> Py.mem sep p = false) ->
  Py.split sep (Py.join sep parts) = parts.
Proof.
  induction parts as [|p parts IH]; intros Hne Hclean; [congruence|].
  destruct parts as [|p' parts].
  - simpl. apply split_no_sep. apply Hclean. left. reflexivity.
  - change (Py.join sep (p :: p' :: parts))
      with (p ++ String sep (Py.join sep (p' :: parts))).
    rewrite split_segment by (apply Hclean; left; reflexivity).
    rewrite IH; [reflexivity | discriminate |].
    intros q Hq. apply Hclean. right. exact Hq.
Qed.

(** X1.  [split] and [join] on one separator are inverse to each
    other: joining the segments of a string gives the string back,
    segments never hold the separator, there is one segment more than
    there are separators, and a non-empty list of separator-free
    segments is what its join splits into. *)
Theorem split_join_round_trip (sep : ascii) :
  (forall s, Py.join sep (Py.split sep s) = s) /\
  (forall s seg, In seg (Py.split sep s) -> Py.mem sep seg = false) /\
  (forall s, List.length (Py.split sep s) = S (occurrences sep s)) /\
  (forall parts,
     parts <> [] ->
     (forall p, In p parts -> Py.mem sep p = false) ->
     Py.split sep (Py.join sep parts) = parts).
Proof.
  split; [apply join_split|].
  split; [apply split_segments_clean|].
  split; [apply split_occurrences | apply split_join].
Qed.

Lemma split_join_round_trip_witness :
  Py.split underscore (Py.join underscore ["Retail"; "Grocery"; "2020"])
  = ["Retail"; "Grocery"; "2020"].
Proof.
  destruct (split_join_round_trip underscore) as (_ & _ & _ & H).
  apply H; [discriminate|].
  intros p [<-|[<-|[<-|[]]]]; reflexivity.
Defined.

(** ** The routing table *)

Lemma set_length (V : Type) (d : Py.dict V) k v :
  List.length (Py.set k v d) <= S (List.length d).
Proof.
  induction d as [|[k' v'] d IH]; simpl; [lia|].
  destruct (String.eqb k k'); simpl; lia.
Qed.

Lemma set_fresh (V : Type) (d : Py.dict V) k v :
  ~ In k (Py.keys d) -> Py.set k v d = (d ++ [(k, v)])%list.
Proof.
  induction d as [|[k' v'] d IH]; simpl; intros H; [reflexivity|].
  destruct (String.eqb k k') eqn:Hk.
  - apply String.eqb_eq in Hk. exfalso. apply H. left. congruence.
  - rewrite IH; [reflexivity|]. intros Hin. apply H. right. exact Hin.
Qed.

Lemma classify_length names : forall d,
  List.length (fold_left classify_step names d)
  <= List.length d + List.length names.
Proof.
  induction names as [|n names IH]; simpl; intros d; [lia|].
  specialize (IH (classify_step d n)).
  assert (List.length (classify_step d n) <= S (List.length d)).
  { unfold classify_step. destruct (sector_entry n). apply set_length. }
  lia.
Qed.

Lemma classify_distinct names : forall d,
  NoDup (Py.keys d ++ map sector_of names)%list ->
  fold_left classify_step names d = (d ++ map sector_entry names)%list.
Proof.
  induction names as [|n names IH]; simpl; intros d H.
  - rewrite app_nil_r. reflexivity.
  - assert (Hfresh : ~ In (sector_of n) (Py.keys d)).
    { intros Hin. apply NoDup_remove_2 in H. apply H.
      apply in_or_app. left. exact Hin. }
    assert (Hstep : classify_step d n = (d ++ [sector_entry n])%list).
    { unfold classify_step, sector_of in *.
      destruct (sector_entry n) as [s b]. apply set_fresh. exact Hfresh. }
    rewrite Hstep, IH.
    + rewrite <- app_assoc. reflexivity.
    + unfold Py.keys in *. rewrite map_app. simpl. rewrite <- app_assoc.
      exact H.
Qed.

(** X2.  The routing table never has two entries for one sector and
    never more entries than there are table names; when the first
    segments of the names are pairwise distinct it is the list of
    their entries, in order. *)
Theorem sector_dict_shape (names : list string) :
  NoDup (Py.keys (generate_sector_dict names)) /\
  List.length (generate_sector_dict names) <= List.length names /\
  (NoDup (map sector_of names) ->
   generate_sector_dict names = map sector_entry names).
Proof.
  unfold generate_sector_dict. split; [|split].
  - apply classify_keys_NoDup. constructor.
  - apply (classify_length names []).
  - intros H. apply (classify_distinct names []). exact H.
Qed.

Lemma sector_dict_shape_witness :
  generate_sector_dict ["Retail_Grocery"; "Housing"; "Energy_Solar"]
  = map sector_entry ["Retail_Grocery"; "Housing"; "Energy_Solar"].
Proof.
  destruct (sector_dict_shape ["Retail_Grocery"; "Housing"; "Energy_Solar"])
    as (_ & _ & H).
  apply H. vm_compute.
  repeat constructor; simpl; intuition discriminate.
Defined.

Lemma last_with_sector names i :
  In i (map sector_of names) ->
  exists p m q,
    names = (p ++ m :: q)%list /\ sector_of m = i /\
    forall x, In x q -> sector_of x <> i.
Proof.
  induction names as [|n names IH]; simpl; intros H; [destruct H|].
  destruct (in_dec string_dec i (map sector_of names)) as [Hin|Hout].
  - destruct (IH Hin) as (p & m & q & -> & Hm & Hq).
    exists (n :: p), m, q. auto.
  - destruct H as [H|H]; [|contradiction].
    exists [], n, names. split; [reflexivity|]. split; [exact H|].
    intros x Hx Heq. apply Hout. rewrite <- Heq. apply in_map. exact Hx.
Qed.

(** An entry of the routing table is the entry of the last name that
    has its sector. *)
Lemma sector_dict_entry names i e :
  Py.get i (generate_sector_dict names) = Some e ->
  exists p m q,
    names = (p ++ m :: q)%list /\ sector_of m = i /\ e = sub_sector_of m /\
    forall x, In x q -> sector_of x <> i.
Proof.
  intros H. pose proof (get_in_keys _ _ H) as Hk.
  unfold generate_sector_dict in Hk. apply classify_keys in Hk.
  destruct Hk as [[]|(n & Hn & Hs)].
  assert (Hin : In i (map sector_of names)).
  { rewrite <- Hs. apply in_map. exact Hn. }
  destruct (last_with_sector _ _ Hin) as (p & m & q & -> & Hm & Hq).
  exists p, m, q. split; [reflexivity|]. split; [exact Hm|]. split; [|exact Hq].
  assert (Hq' : forall x, In x q -> sector_of x <> sector_of m).
  { intros x Hx. rewrite Hm. apply Hq. exact Hx. }
  unfold generate_sector_dict in H. rewrite <- Hm in H.
  rewrite (classify_get_last p m q [] Hq') in H. congruence.
Qed.

Lemma regular_table_key n :
  regular n -> table_key (sector_of n) (sub_sector_of n) = n.
Proof.
  unfold regular, segments, sector_of, sub_sector_of, sector_entry.
  pose proof (join_split underscore n) as Hj.
  destruct (Py.split underscore n) as [|a [|b [|c l]]]; simpl in *;
    intros [H|[H Hb]]; try discriminate.
  - exact Hj.
  - destruct b as [|x b]; [congruence|]. simpl. exact Hj.
Qed.

Lemma split_at_unique (A : Type) (a : A) p : forall p' q q',
  ~ In a p -> ~ In a p' ->
  (p ++ a :: q)%list = (p' ++ a :: q')%list -> p = p' /\ q = q'.
Proof.
  induction p as [|x p IH]; intros [|x' p'] q q' Hp Hp' H; simpl in *.
  - injection H as <-. auto.
  - injection H as -> _. exfalso. apply Hp'. auto.
  - injection H as <- _. exfalso. apply Hp. auto.
  - injection H as <- H. destruct (IH p' q q') as [-> ->]; auto.
Qed.

(** X3.  When the loaded names are distinct and each is SECTOR or
    SECTOR_SUBSECTOR, every key the loop rebuilds is a loaded name;
    the last name of each sector is the one rebuilt, and a name
    followed by another of the same sector is never rebuilt. *)
Theorem regular_names_lookup (names : list string) :
  NoDup names ->
  (forall n, In n names -> regular n) ->
  (forall i e,
     Py.get i (generate_sector_dict names) = Some e ->
     In (table_key i e) names) /\
  (forall pre n post,
     names = (pre ++ n :: post)%list ->
     (forall m, In m post -> sector_of m <> sector_of n) ->
     Py.get (sector_of n) (generate_sector_dict names)
     = Some (sub_sector_of n) /\
     table_key (sector_of n) (sub_sector_of n) = n) /\
  (forall pre n post m,
     names = (pre ++ n :: post)%list ->
     In m post -> sector_of m = sector_of n ->
     forall i e,
       Py.get i (generate_sector_dict names) = Some e ->
       table_key i e <> n).
Proof.
  intros Hnd Hreg. split; [|split].
  - intros i e H.
    destruct (sector_dict_entry _ _ H) as (p & m & q & -> & <- & -> & _).
    rewrite regular_table_key by (apply Hreg, in_elt).
    apply in_elt.
  - intros pre n post -> Hlast. split.
    + apply classify_get_last. exact Hlast.
    + apply regular_table_key, Hreg, in_elt.
  - intros pre n post m Hnames Hm Hs i e H Heq.
    destruct (sector_dict_entry _ _ H) as (p & m' & q & Hnames' & <- & -> & Hq).
    rewrite regular_table_key in Heq
      by (apply Hreg; rewrite Hnames'; apply in_elt).
    subst m'. rewrite Hnames in Hnames'.
    assert (Hpre : ~ In n pre /\ ~ In n post).
    { rewrite Hnames in Hnd. apply NoDup_remove_2 in Hnd.
      split; intros Hin; apply Hnd; apply in_or_app; auto. }
    assert (Hp : ~ In n p).
    { rewrite Hnames, Hnames' in Hnd. apply NoDup_remove_2 in Hnd.
      intros Hin. apply Hnd. apply in_or_app. auto. }
    destruct (split_at_unique _ _ _ _ _ (proj1 Hpre) Hp Hnames') as [_ <-].
    apply (Hq m Hm). exact Hs.
Qed.

Lemma regular_names_lookup_witness :
  table_key "Retail" (Some "Grocery") <> "Retail_Clothing".
Proof.
  destruct (@regular_names_lookup
              ["Retail_Clothing"; "Housing"; "Retail_Grocery"]) as (_ & _ & H).
  - repeat constructor; simpl; intuition discriminate.
  - intros n [<-|[<-|[<-|[]]]]; vm_compute;
      first [ left; reflexivity | right; split; [reflexivity | discriminate] ].
  - apply (H [] "Retail_Clothing" ["Housing"; "Retail_Grocery"] "Retail_Grocery").
    + reflexivity.
    + simpl. auto.
    + reflexivity.
    + reflexivity.
Defined.

(** ** The loop over the routing table *)

Section LoopFacts.

Variable E : Type.
Variable run : string -> list row -> graph -> E + graph.

Lemma ingest_failure_keeps_world data_dict sector_dict i w e :
  fst (ingest run data_dict sector_dict i w) = inl e ->
  snd (ingest run data_dict sector_dict i w) = w.
Proof.
  destruct (Py.get i sector_dict) as [entry|] eqn:Hi.
  - rewrite (ingest_unfold run data_dict sector_dict i w Hi).
    destruct (Py.get (table_key i entry) data_dict) as [df|]; [|reflexivity].
    unfold loader_load_dataframe.
    destruct (load_dataframe run df _ _ (db w)); simpl;
      [reflexivity | discriminate].
  - unfold ingest, bind, subscript. rewrite Hi. reflexivity.
Qed.

Lemma for_each_no_key_error data_dict sector_dict l k : forall w,
  (forall i, In i l ->
     exists e, Py.get i sector_dict = Some e /\
               In (table_key i e) (Py.keys data_dict)) ->
  fst (for_each l (ingest run data_dict sector_dict) w) <> inl (KeyError k).
Proof.
  induction l as [|i l IH]; intros w H; simpl; [discriminate|].
  unfold bind.
  destruct (H i (or_introl eq_refl)) as (e & He & Hin).
  rewrite (ingest_unfold run data_dict sector_dict i w He).
  destruct (in_keys_get _ _ Hin) as [df Hdf]. rewrite Hdf.
  unfold loader_load_dataframe.
  destruct (load_dataframe run df _ _ (db w)); simpl; [discriminate|].
  apply IH. intros j Hj. apply H. right. exact Hj.
Qed.

(** X4.  When the loaded names are each SECTOR or SECTOR_SUBSECTOR,
    the run never ends in a lookup error: every table the loop asks
    for is there. *)
Theorem regular_names_no_lookup_error
        (data_dict : Py.dict DataFrame) (w : world) (k : string) :
  NoDup (Py.keys data_dict) ->
  (forall n, In n (Py.keys data_dict) -> regular n) ->
  fst (main run data_dict w) <> inl (KeyError k).
Proof.
  intros Hnd Hreg. rewrite main_after_loop. simpl. unfold ingest_all.
  apply for_each_no_key_error. intros i Hi.
  destruct (in_keys_get _ _ Hi) as [e He]. exists e. split; [exact He|].
  destruct (sector_dict_entry _ _ He) as (p & m & q & Hnames & <- & -> & _).
  assert (Hm : In m (Py.keys data_dict)) by (rewrite Hnames; apply in_elt).
  rewrite regular_table_key by (apply Hreg; exact Hm). exact Hm.
Qed.

(** X5.  The loop stops at the first entry that raises: what the
    entries before it loaded stays in the store, the entries after it
    are not tried, the driver is closed, and the run ends with that
    error. *)
Theorem first_failure_aborts
        (data_dict : Py.dict DataFrame) (w w1 : world)
        (pre post : list string) (i : string) (e : exn E) :
  let sector_dict := generate_sector_dict (Py.keys data_dict) in
  Py.keys sector_dict = (pre ++ i :: post)%list ->
  for_each pre (ingest run data_dict sector_dict) w = (inr tt, w1) ->
  fst (ingest run data_dict sector_dict i w1) = inl e ->
  main run data_dict w = (inl e, {| db := db w1; closed := S (closed w) |}).
Proof.
  intros sector_dict Hkeys Hpre Hfail.
  rewrite main_after_loop. fold sector_dict. unfold ingest_all.
  rewrite Hkeys. erewrite for_each_app by exact Hpre. simpl. unfold bind.
  pose proof (ingest_failure_keeps_world _ _ _ _ Hfail) as Hw.
  destruct (ingest run data_dict sector_dict i w1) as [[e'|[]] w'];
    simpl in *; [|discriminate].
  injection Hfail as ->. subst w'. reflexivity.
Qed.

Lemma append_not_self (a b : string) : b <> EmptyString -> (a ++ b) <> a.
Proof.
  intros Hb. induction a as [|c a IH]; simpl; [exact Hb|].
  intros H. injection H as H. exact (IH H).
Qed.

(** X6.  A lone table whose name ends right after the first
    underscore is asked for under the part before the underscore:
    the run ends with a lookup error for that part and loads
    nothing. *)
Theorem trailing_underscore_lookup (a : string) (df : DataFrame) (w : world) :
  Py.mem underscore a = false ->
  main run [(a ++ "_", df)] w
  = (inl (KeyError a), {| db := db w; closed := S (closed w) |}).
Proof.
  intros Ha. rewrite main_after_loop.
  assert (Hsd : generate_sector_dict (Py.keys [(a ++ "_", df)])
                = [(a, Some EmptyString)]).
  { unfold generate_sector_dict, classify_step, sector_entry. simpl.
    change (a ++ "_") with (a ++ String underscore EmptyString).
    rewrite (split_segment _ _ _ Ha). reflexivity. }
  rewrite Hsd. unfold ingest_all. simpl. unfold bind.
  assert (Hget : Py.get a [(a, Some EmptyString)] = Some (Some EmptyString)).
  { simpl. rewrite String.eqb_refl. reflexivity. }
  rewrite (ingest_unfold run _ _ _ w Hget). simpl.
  assert (Hne : String.eqb a (a ++ "_") = false).
  { apply String.eqb_neq. intros H. symmetry in H.
    revert H. apply append_not_self. discriminate. }
  rewrite Hne. reflexivity.
Qed.

End LoopFacts.

Lemma regular_names_no_lookup_error_witness :
  fst (main neo4j_run [("Retail_Grocery", ohio); ("Housing", ohio)] fresh)
  <> inl (KeyError "Housing").
Proof.
  apply regular_names_no_lookup_error.
  - repeat constructor; simpl; intuition discriminate.
  - intros n [<-|[<-|[]]]; vm_compute;
      first [ left; reflexivity | right; split; [reflexivity | discriminate] ].
Defined.

Lemma first_failure_aborts_witness :
  main neo4j_run [("Housing", ohio); ("A_B_C", ohio)] fresh
  = (inl (KeyError "A_B"),
     {| db := loaded ohio None (Some "Housing") empty_graph; closed := 1 |}).
Proof.
  apply first_failure_aborts
    with (w1 := {| db := loaded ohio None (Some "Housing") empty_graph;
                   closed := 0 |})
         (pre := ["Housing"]) (post := []) (i := "A").
  - reflexivity.
  - vm_compute. reflexivity.
  - vm_compute. reflexivity.
Defined.

Lemma trailing_underscore_lookup_witness :
  main neo4j_run [("Retail" ++ "_", ohio)] fresh
  = (inl (KeyError "Retail"), {| db := empty_graph; closed := 1 |}).
Proof.
  apply trailing_underscore_lookup. reflexivity.
Defined.

(** ** The store after a load *)

Section LoadFacts.

Import Cypher.

Variable parse_int : string -> option Z.
Variable parse_float : string -> option float.

(** X7.  After a load that goes through under names without
    backslash, every row has its whole path in the store: State, EDD,
    County, the Sector node of the sector name, the Sub_Sector node
    of the other name, the four relationships between them, and for
    each metric column a Metrics node the Sub_Sector node reports. *)
Theorem load_dataframe_hierarchy df sub sec g g' r :
  Py.mem backslash (Py.str sub) = false ->
  Py.mem backslash (Py.str sec) = false ->
  load_dataframe (session_run parse_int parse_float) df sub sec g = inr g' ->
  In r (to_dict_records df) ->
  let state := State (prop r "State") in
  let region := EDD (prop r "Region") in
  let county := County (prop r "County") (prop r "county_id") in
  let sector := Sector (Py.str sec) in
  let sub_sector := Sub_Sector (Py.str sub) in
  (In state (nodes g') /\ In region (nodes g') /\ In county (nodes g') /\
   In sector (nodes g') /\ In sub_sector (nodes g')) /\
  (In (state, HAS_EDD, region) (edges g') /\
   In (region, HAS_COUNTY, county) (edges g') /\
   In (county, HAS_SECTOR, sector) (edges g') /\
   In (sector, HAS_SUB_SECTOR, sub_sector) (edges g')) /\
  (forall c, In c (metric_columns r) ->
     exists y, toInteger parse_int (prop r "Year") = Some y /\
       In (Metrics c y (prop r "County")) (nodes g') /\
       In (sub_sector, REPORTS, Metrics c y (prop r "County")) (edges g')).
Proof.
  intros Hsub Hsec H Hr. unfold load_dataframe in H.
  pose proof (parse_query_text _ _ Hsub Hsec) as Hq.
  set (qu := {| q_sector := Py.str sec;
                q_subsector := if Py.truthy (Py.str sub)
                               then Some (Py.str sub) else None |}) in *.
  pose proof H as H0.
  apply session_run_inr in H0 as (qu' & ops & Hq' & Hb & _).
  assert (qu' = qu) by congruence. subst qu'.
  edestruct collect_inr_each as [ys Hys]; [exact Hb | exact Hr |].
  assert (Hp : forall o, In o ys -> present g' o).
  { intros o Ho. eapply row_ops_present; eauto. }
  destruct (row_needs_sub_sector _ _ _ _ Hys) as [name Hname].
  assert (Hn : name = Py.str sub).
  { unfold qu in Hname. simpl in Hname.
    destruct (Py.truthy (Py.str sub)); congruence. }
  subst name.
  pose proof Hys as Hys'.
  apply row_ops_inr in Hys' as (_ & _ & _ & _ & ms & Hc & ->).
  assert (Hh : forall o,
             In o (hierarchy_ops qu (prop r "State") (prop r "Region")
                     (prop r "County") (prop r "county_id")) ->
             present g' o).
  { intros o Ho. apply Hp. apply in_or_app. left. exact Ho. }
  unfold hierarchy_ops in Hh. rewrite Hname in Hh. simpl in Hh.
  cbv zeta. split; [|split].
  - repeat split.
    + apply (Hh (MergeNode _ None)). auto.
    + apply (Hh (MergeNode (EDD _) None)). auto.
    + apply (Hh (MergeNode (County _ _) None)). auto 6.
    + apply (Hh (MergeNode (Sector _) None)). auto 8.
    + apply (Hh (MergeNode (Sub_Sector _) None)). auto 10.
  - repeat split.
    + apply (Hh (MergeEdge (State _, HAS_EDD, _))). auto.
    + apply (Hh (MergeEdge (EDD _, HAS_COUNTY, _))). auto 8.
    + apply (Hh (MergeEdge (County _ _, HAS_SECTOR, _))). auto 10.
    + apply (Hh (MergeEdge (Sector _, HAS_SUB_SECTOR, _))). auto 12.
  - intros c Hcin.
    edestruct collect_inr_each as [zs Hm]; [exact Hc | exact Hcin |].
    pose proof Hm as Hm'.
    apply metric_ops_inr in Hm' as (y & origin & Hy & Ho & ->).
    unfold subsector in Ho. rewrite Hname in Ho. injection Ho as <-.
    exists y. split; [exact Hy|].
    assert (Hz : forall o,
               In o [MergeNode (Metrics c y (prop r "County"))
                       (toFloat parse_float (prop r c));
                     MergeEdge (Sub_Sector (Py.str sub), REPORTS,
                                Metrics c y (prop r "County"))] ->
               present g' o).
    { intros o Ho. apply Hp. apply in_or_app. right.
      apply (collect_inr_in _ _ _ Hc). eauto. }
    split.
    + apply (Hz (MergeNode (Metrics c y (prop r "County"))
                           (toFloat parse_float (prop r c)))).
      simpl. auto.
    + apply (Hz (MergeEdge (Sub_Sector (Py.str sub), REPORTS,
                            Metrics c y (prop r "County")))).
      simpl. auto.
Qed.

(** X8.  A load under names without backslash that goes through
    removes nothing: every node and every relationship the store held
    is still there. *)
Theorem load_never_removes df sub sec g g' :
  Py.mem backslash (Py.str sub) = false ->
  Py.mem backslash (Py.str sec) = false ->
  load_dataframe (session_run parse_int parse_float) df sub sec g = inr g' ->
  (forall n, In n (nodes g) -> In n (nodes g')) /\
  (forall e, In e (edges g) -> In e (edges g')).
Proof.
  intros Hsub Hsec H. unfold load_dataframe in H.
  apply session_run_inr in H as (qu & ops & Hq & _ & ->).
  rewrite (parse_query_text _ _ Hsub Hsec) in Hq. split.
  - intros n Hn. apply run_ops_nodes. auto.
  - intros e He. apply run_ops_edges. auto.
Qed.

Lemma row_edge_endpoints qu r ys a rl b :
  row_ops parse_int parse_float qu r = inr ys ->
  In (MergeEdge (a, rl, b)) ys ->
  (exists oc, In (MergeNode a oc) ys) /\ (exists oc, In (MergeNode b oc) ys).
Proof.
  intros H Hin. pose proof (row_needs_sub_sector _ _ _ _ H) as [name Hname].
  apply row_ops_inr in H as (_ & _ & _ & _ & ms & Hc & ->).
  apply in_app_iff in Hin as [Hin|Hin].
  - unfold hierarchy_ops in *. rewrite Hname in *. simpl in Hin.
    repeat (destruct Hin as [Hin|Hin]; try discriminate);
      try contradiction;
      injection Hin as <- <- <-;
      split; exists None; apply in_or_app; left; simpl; auto 12.
  - apply (collect_inr_in _ _ _ Hc) in Hin as (c & zs & Hcin & Hm & Hx).
    pose proof Hm as Hm'.
    apply metric_ops_inr in Hm' as (y & origin & _ & Ho & ->).
    destruct Hx as [Hx|[Hx|[]]]; [discriminate|].
    injection Hx as <- <- <-.
    unfold subsector in Ho. rewrite Hname in Ho. injection Ho as <-. split.
    + exists None. apply in_or_app. left.
      unfold hierarchy_ops. rewrite Hname. simpl. auto 12.
    + exists (toFloat parse_float (prop r c)). apply in_or_app. right.
      apply (collect_inr_in _ _ _ Hc). exists c. eexists.
      split; [exact Hcin|]. split; [exact Hm|]. simpl. auto.
Qed.

(** X9.  A load that goes through keeps the store well formed: if
    every relationship joined two nodes of the store before, the same
    holds after. *)
Theorem load_keeps_well_formed df sub sec g g' :
  well_formed g ->
  load_dataframe (session_run parse_int parse_float) df sub sec g = inr g' ->
  well_formed g'.
Proof.
  unfold load_dataframe. intros Hwf H a rl b Hin.
  apply session_run_inr in H as (qu & ops & _ & Hb & ->).
  apply run_ops_edges in Hin as [Hin|Hin].
  - destruct (Hwf a rl b Hin) as [Ha Hb']. split; apply run_ops_nodes; auto.
  - apply (collect_inr_in _ _ _ Hb) in Hin as (r & ys & Hr & Hys & Hx).
    destruct (row_edge_endpoints _ _ _ _ _ Hys Hx) as [[oa Ha] [ob Hb']].
    split; apply run_ops_nodes; right.
    + exists (MergeNode a oa). split; [|eexists; reflexivity].
      apply (collect_inr_in _ _ _ Hb). eauto.
    + exists (MergeNode b ob). split; [|eexists; reflexivity].
      apply (collect_inr_in _ _ _ Hb). eauto.
Qed.

Lemma record_of_keys cols cells k :
  In k (Py.keys (record_of cols cells)) -> In k cols.
Proof.
  unfold record_of.
  assert (Hgen : forall l (d : row),
             In k (Py.keys (fold_left (fun d kv => Py.set (fst kv) (snd kv) d)
                                      l d)) ->
             In k (Py.keys d) \/ In k (map fst l)).
  { induction l as [|[k' v'] l IH]; simpl; intros d H; [auto|].
    apply IH in H as [H|H]; [|auto].
    apply keys_set in H as [->|H]; auto. }
  intros H. apply Hgen in H as [[]|H].
  revert cells H. induction cols as [|c cols IH]; intros [|v cells] H;
    simpl in *; try contradiction.
  destruct H as [H|H]; eauto.
Qed.

Lemma row_ops_dimension_fatal qu r k :
  In k dimension_fields -> prop r k = VNull ->
  exists e, row_ops parse_int parse_float qu r = inl e.
Proof.
  intros Hk Hnull.
  destruct (row_ops parse_int parse_float qu r) as [e|ys] eqn:H; [eauto|].
  exfalso. apply row_ops_inr in H as (H1 & H2 & H3 & H4 & _).
  unfold dimension_fields in Hk. simpl in Hk.
  destruct Hk as [<-|[<-|[<-|[<-|[]]]]]; contradiction.
Qed.

(** X10.  A row in which one of State, Region, County or county_id
    is null or absent makes the transaction fail; so a frame with at
    least one line and without one of these columns cannot be
    loaded. *)
Theorem missing_dimension_fails :
  (forall text rows g r k,
     In r rows -> In k dimension_fields -> prop r k = VNull ->
     exists e, session_run parse_int parse_float text rows g = inl e) /\
  (forall df sub sec g k,
     In k dimension_fields -> ~ In k (columns df) -> data df <> [] ->
     exists e,
       load_dataframe (session_run parse_int parse_float) df sub sec g
       = inl e).
Proof.
  assert (Hrows : forall text rows g r k,
             In r rows -> In k dimension_fields -> prop r k = VNull ->
             exists e, session_run parse_int parse_float text rows g = inl e).
  { intros text rows g r k Hr Hk Hnull. unfold session_run.
    destruct (parse_query text) as [qu|]; [|eauto].
    destruct (row_ops_dimension_fatal qu r Hk Hnull) as [e He].
    destruct (collect_inl (row_ops parse_int parse_float qu) rows r Hr He)
      as [e' He'].
    unfold batch_ops. rewrite He'. eauto. }
  split; [exact Hrows|].
  intros df sub sec g k Hk Hcol Hdata. unfold load_dataframe.
  destruct (data df) as [|cells rest] eqn:Hd; [congruence|].
  apply (Hrows _ _ _ (record_of (columns df) cells) k).
  - unfold to_dict_records. rewrite Hd. simpl. auto.
  - exact Hk.
  - unfold prop.
    destruct (Py.get k (record_of (columns df) cells)) eqn:Hg; [|reflexivity].
    exfalso. apply Hcol. eapply record_of_keys, get_in_keys. exact Hg.
Qed.

(** X11.  A frame without lines, loaded under names without
    backslash, goes through and leaves the store as it is. *)
Theorem empty_frame_loads df sub sec g :
  data df = [] ->
  Py.mem backslash (Py.str sub) = false ->
  Py.mem backslash (Py.str sec) = false ->
  load_dataframe (session_run parse_int parse_float) df sub sec g = inr g.
Proof.
  intros Hd Hsub Hsec. unfold load_dataframe, session_run, to_dict_records.
  rewrite (parse_query_text _ _ Hsub Hsec), Hd. reflexivity.
Qed.

(** X12.  Under names without backslash the order of the lines of a
    frame does not decide what the store holds: if a frame loads, so
    does the frame with its lines in any other order, and the two
    loads leave the same nodes and the same relationships. *)
Theorem row_order_irrelevant df df' sub sec g g1 :
  Py.mem backslash (Py.str sub) = false ->
  Py.mem backslash (Py.str sec) = false ->
  columns df' = columns df ->
  Permutation (data df) (data df') ->
  load_dataframe (session_run parse_int parse_float) df sub sec g = inr g1 ->
  exists g2,
    load_dataframe (session_run parse_int parse_float) df' sub sec g = inr g2 /\
    (forall n, In n (nodes g1) <-> In n (nodes g2)) /\
    (forall e, In e (edges g1) <-> In e (edges g2)).
Proof.
  intros Hsub Hsec Hcols Hdata H.
  assert (Hperm : Permutation (to_dict_records df) (to_dict_records df')).
  { unfold to_dict_records. rewrite Hcols. apply Permutation_map. exact Hdata. }
  unfold load_dataframe in *.
  apply session_run_inr in H as (qu & ops & Hq & Hb & ->).
  unfold batch_ops in Hb.
  destruct (collect_all_ok (row_ops parse_int parse_float qu)
                           (to_dict_records df'))
    as [ops' Hb'].
  { intros r Hr. eapply collect_inr_each; [exact Hb|].
    eapply Permutation_in; [apply Permutation_sym; exact Hperm | exact Hr]. }
  exists (run_ops ops' g). unfold session_run, batch_ops. rewrite Hq, Hb'.
  split; [reflexivity|].
  assert (Hsame : forall o, In o ops <-> In o ops').
  { intros o. rewrite (collect_inr_in _ _ o Hb), (collect_inr_in _ _ o Hb').
    split; intros (r & ys & Hr & Hys & Ho); exists r, ys;
      (split; [|auto]).
    - eapply Permutation_in; eauto.
    - eapply Permutation_in; [apply Permutation_sym|]; eauto. }
  split.
  - intros n. rewrite !run_ops_nodes. split;
      (intros [Hn|(o & Ho & Hm)]; [auto|]; right; exists o;
       split; [apply Hsame; exact Ho | exact Hm]).
  - intros e. rewrite !run_ops_edges, Hsame. tauto.
Qed.

Lemma run_ops_app ops1 ops2 g :
  run_ops (ops1 ++ ops2)%list g = run_ops ops2 (run_ops ops1 g).
Proof. unfold run_ops. apply fold_left_app. Qed.

Lemma first_payload_app n ops1 ops2 :
  first_payload n (ops1 ++ ops2)%list =
  match first_payload n ops1 with
  | Some oc => Some oc
  | None => first_payload n ops2
  end.
Proof.
  induction ops1 as [|[m oc|e] ops1 IH]; simpl; [reflexivity| |exact IH].
  destruct (node_eq_dec n m); [reflexivity | exact IH].
Qed.

Lemma first_payload_none n ops :
  (forall oc, ~ In (MergeNode n oc) ops) -> first_payload n ops = None.
Proof.
  induction ops as [|[m oc|e] ops IH]; simpl; intros H; [reflexivity| |].
  - destruct (node_eq_dec n m) as [->|_].
    + exfalso. apply (H oc). auto.
    + apply IH. intros oc' Hin. apply (H oc'). auto.
  - apply IH. intros oc' Hin. apply (H oc'). auto.
Qed.

(** The value of a node the store did not hold, after a list of
    upserts: what its first upsert sets. *)
Lemma run_ops_first_payload ops : forall g n,
  ~ In n (nodes g) -> metric_value g n = None ->
  metric_value (run_ops ops g) n =
  match first_payload n ops with
  | Some oc => oc
  | None => None
  end.
Proof.
  induction ops as [|o ops IH]; intros g n Hn Hv; [exact Hv|].
  change (run_ops (o :: ops) g) with (run_ops ops (apply_op g o)).
  destruct o as [m oc|e]; simpl first_payload.
  - destruct (node_eq_dec n m) as [<-|Hne].
    + rewrite run_ops_value_kept
        by (apply (apply_op_makes_present g (MergeNode n oc))).
      simpl. apply has_node_false in Hn. rewrite Hn.
      unfold metric_value. simpl. destruct oc as [f|]; simpl.
      * destruct (node_eq_dec n n); congruence.
      * exact Hv.
    + apply IH.
      * intros Hin. apply apply_op_nodes in Hin as [Hin|[oc' Heq]];
          [contradiction|]. injection Heq as Heq _. congruence.
      * apply apply_op_value_none; [exact Hv|]. intros f Heq.
        injection Heq as Heq _. congruence.
  - apply IH.
    + intros Hin. apply apply_op_nodes in Hin as [Hin|[oc' Heq]];
        [contradiction | discriminate].
    + apply apply_op_value_none; [exact Hv|]. intros f Heq. discriminate.
Qed.

Lemma metric_first_payload r cty a y c cols : forall ms,
  toInteger parse_int (prop r "Year") = Some y ->
  collect (metric_ops parse_int parse_float r cty a) cols = inr ms ->
  In c cols ->
  first_payload (Metrics c y cty) ms
  = Some (toFloat parse_float (prop r c)).
Proof.
  induction cols as [|c' cols IH]; intros ms Hy Hc Hin; [destruct Hin|].
  simpl in Hc.
  destruct (metric_ops parse_int parse_float r cty a c') as [|zs] eqn:Hm;
    [discriminate|].
  destruct (collect _ cols) as [|ms'] eqn:Hc'; [discriminate|].
  injection Hc as <-.
  apply metric_ops_inr in Hm as (y' & origin & Hy' & _ & ->).
  assert (y' = y) by congruence. subst y'. cbn [app first_payload].
  destruct (node_eq_dec (Metrics c y cty) (Metrics c' y cty)) as [Heq|Hne].
  - injection Heq as <-. reflexivity.
  - destruct Hin as [->|Hin]; [congruence|].
    apply (IH ms' Hy eq_refl Hin).
Qed.

(** X13.  Inside one load under names without backslash the first
    line that carries a Metrics key decides its value: for a County
    that is a text, when the store did not hold the node and no
    earlier line has the same column, year and County, the node ends
    with what [toFloat] makes of that line's cell, whatever later
    lines carry. *)
Theorem first_row_sets_value df sub sec pre r post g g' c y s :
  Py.mem backslash (Py.str sub) = false ->
  Py.mem backslash (Py.str sec) = false ->
  to_dict_records df = (pre ++ r :: post)%list ->
  load_dataframe (session_run parse_int parse_float) df sub sec g = inr g' ->
  In c (metric_columns r) ->
  reads_as_integer parse_int (prop r "Year") y ->
  prop r "County" = VStr s ->
  ~ In (Metrics c y (VStr s)) (nodes g) ->
  metric_value g (Metrics c y (VStr s)) = None ->
  (forall r', In r' pre -> In c (metric_columns r') ->
     reads_as_integer parse_int (prop r' "Year") y ->
     prop r' "County" <> VStr s) ->
  metric_value g' (Metrics c y (VStr s)) = toFloat parse_float (prop r c).
Proof.
  intros Hsub Hsec Hrows H Hc Hy Hcty Hn Hv Hpre.
  apply (proj2 (toInteger_reads parse_int _ _)) in Hy.
  unfold load_dataframe in H. rewrite Hrows in H.
  apply session_run_inr in H as (qu & ops & Hq & Hb & ->).
  rewrite (parse_query_text _ _ Hsub Hsec) in Hq.
  unfold batch_ops in Hb.
  apply collect_app in Hb as (ops1 & ops2 & Hb1 & Hb2 & ->).
  simpl in Hb2.
  destruct (row_ops parse_int parse_float qu r) as [|ys] eqn:Hys;
    [discriminate|].
  destruct (collect _ post) as [|ops3]; [discriminate|].
  injection Hb2 as <-.
  rewrite run_ops_first_payload by assumption.
  rewrite first_payload_app, first_payload_none.
  - rewrite first_payload_app.
    apply row_ops_inr in Hys as (_ & _ & _ & _ & ms & Hms & ->).
    rewrite first_payload_app.
    rewrite (@first_payload_none _
               (hierarchy_ops qu (prop r "State") (prop r "Region")
                              (prop r "County") (prop r "county_id")))
      by (intros oc Hin;
          eapply (hierarchy_ops_no_metric parse_int parse_float); exact Hin).
    rewrite Hcty in Hms.
    rewrite (metric_first_payload _ _ _ _ _ Hy Hms Hc). reflexivity.
  - intros oc Hin.
    eapply batch_metric_nodes in Hin; [|exact Hb1].
    destruct Hin as (r' & Hr' & Hc' & Hy' & Hcty' & _).
    apply (proj1 (toInteger_reads parse_int _ _)) in Hy'.
    apply (Hpre r' Hr' Hc' Hy' Hcty').
Qed.

End LoadFacts.

Lemma load_dataframe_hierarchy_witness :
  In (State (VStr "OH")) (nodes ohio_loaded) /\
  In (Sector "Retail", HAS_SUB_SECTOR, Sub_Sector "Grocery") (edges ohio_loaded).
Proof.
  assert (H : load_dataframe neo4j_run ohio (Some "Grocery") (Some "Retail")
                empty_graph = inr ohio_loaded) by (vm_compute; reflexivity).
  assert (Hr : In (first_record ohio) (to_dict_records ohio))
    by (vm_compute; auto).
  destruct (@load_dataframe_hierarchy Numerals.parse_int Numerals.parse_float
              ohio (Some "Grocery") (Some "Retail") empty_graph ohio_loaded
              (first_record ohio) eq_refl eq_refl H Hr)
    as ((Hs & _) & (_ & _ & _ & He) & _).
  split; [exact Hs | exact He].
Defined.

Lemma load_never_removes_witness :
  In (Sector "Retail", REPORTS, cuyahoga_2020 "Employment")
     (edges (loaded ohio None (Some "Retail") reported_by_sector)).
Proof.
  assert (H : load_dataframe neo4j_run ohio None (Some "Retail")
                reported_by_sector
              = inr (loaded ohio None (Some "Retail") reported_by_sector))
    by (vm_compute; reflexivity).
  destruct (@load_never_removes Numerals.parse_int Numerals.parse_float
              ohio None (Some "Retail") reported_by_sector _
              eq_refl eq_refl H) as [_ He].
  apply He. simpl. auto.
Defined.

Lemma load_keeps_well_formed_witness : well_formed ohio_loaded.
Proof.
  apply (@load_keeps_well_formed Numerals.parse_int Numerals.parse_float
           ohio (Some "Grocery") (Some "Retail") empty_graph ohio_loaded).
  - intros a r b [].
  - vm_compute. reflexivity.
Defined.

Lemma missing_dimension_fails_witness :
  exists e,
    load_dataframe neo4j_run ohio_no_fips (Some "Grocery") (Some "Retail")
                   empty_graph = inl e.
Proof.
  destruct (missing_dimension_fails Numerals.parse_int Numerals.parse_float)
    as [_ H].
  apply (H ohio_no_fips (Some "Grocery") (Some "Retail") empty_graph
           "county_id").
  - unfold dimension_fields. simpl. auto.
  - simpl. intuition discriminate.
  - discriminate.
Defined.

Lemma empty_frame_loads_witness :
  load_dataframe neo4j_run ohio_no_lines None (Some "Retail") ohio_loaded
  = inr ohio_loaded.
Proof.
  apply (@empty_frame_loads Numerals.parse_int Numerals.parse_float);
    reflexivity.
Defined.

Lemma row_order_irrelevant_witness :
  exists g2,
    load_dataframe neo4j_run ohio_two_lines_back (Some "Grocery")
                   (Some "Retail") empty_graph = inr g2.
Proof.
  assert (H : load_dataframe neo4j_run ohio_two_lines (Some "Grocery")
                (Some "Retail") empty_graph = inr ohio_then_revised)
    by (vm_compute; reflexivity).
  destruct (@row_order_irrelevant Numerals.parse_int Numerals.parse_float
              ohio_two_lines ohio_two_lines_back (Some "Grocery")
              (Some "Retail") empty_graph ohio_then_revised
              eq_refl eq_refl eq_refl (perm_swap _ _ _) H) as (g2 & H2 & _).
  exists g2. exact H2.
Defined.

Lemma first_row_sets_value_witness :
  metric_value ohio_then_revised (cuyahoga_2020 "Employment")
  = Some (12005, -1)%Z.
Proof.
  assert (H : load_dataframe neo4j_run ohio_two_lines (Some "Grocery")
                (Some "Retail") empty_graph = inr ohio_then_revised)
    by (vm_compute; reflexivity).
  apply (@first_row_sets_value Numerals.parse_int Numerals.parse_float
           ohio_two_lines (Some "Grocery") (Some "Retail")
           [] (first_record ohio) [first_record ohio_revised]
           empty_graph ohio_then_revised "Employment" 2020%Z "Cuyahoga"
           eq_refl eq_refl eq_refl H).
  - vm_compute. auto.
  - reflexivity.
  - reflexivity.
  - intros [].
  - reflexivity.
  - intros r' [].
Defined.

(** X14.  Names without backslash survive the trip through the query
    text: each is read back as it was, whatever quotes it holds, up
    to the closing quote of the template, and the text as a whole is
    read as the query with that Sector key and, when the other name
    is not empty, that Sub_Sector key. *)
Theorem query_names_round_trip (sub sec : string) :
  Py.mem backslash sub = false ->
  Py.mem backslash sec = false ->
  (forall rest,
     Cypher.read_literal (escape sec ++ quote_s ++ rest) = Some (sec, rest)) /\
  Cypher.parse_query (query_text (escape sub) (escape sec))
  = Some {| Cypher.q_sector := sec;
            Cypher.q_subsector := if Py.truthy sub then Some sub else None |}.
Proof.
  intros Hsub Hsec. split.
  - intros rest. apply read_literal_escape. exact Hsec.
  - apply parse_query_text; assumption.
Qed.

Lemma query_names_round_trip_witness :
  Cypher.parse_query (query_text (escape "O'Hare") (escape "Retail's"))
  = Some {| Cypher.q_sector := "Retail's";
            Cypher.q_subsector := Some "O'Hare" |}.
Proof.
  destruct (@query_names_round_trip "O'Hare" "Retail's" eq_refl eq_refl)
    as [_ H].
  exact H.
Defined.

(* ================================================================== *)
(** ** Loading the folder *)

Lemma split_app_sep sep a b :
  Py.split sep (a ++ String sep b) = (Py.split sep a ++ Py.split sep b)%list.
Proof.
  induction a as [|c a IH]; simpl.
  - rewrite Ascii.eqb_refl. reflexivity.
  - destruct (Ascii.eqb c sep); [rewrite IH; reflexivity|].
    rewrite IH. pose proof (split_not_nil sep a) as Hn.
    destruct (Py.split sep a); [congruence | reflexivity].
Qed.

Lemma last_app_not_nil (A : Type) (l1 l2 : list A) d :
  l2 <> [] -> last (l1 ++ l2) d = last l2 d.
Proof.
  intros H. induction l1 as [|x l1 IH]; [reflexivity|].
  simpl. destruct (l1 ++ l2)%list eqn:Heq; [|exact IH].
  apply app_eq_nil in Heq as [_ ->]. congruence.
Qed.

Lemma file_extension_app a b :
  file_extension (a ++ "." ++ b) = file_extension b.
Proof.
  unfold file_extension. change (a ++ "." ++ b) with (a ++ String dot b).
  rewrite split_app_sep. apply last_app_not_nil, split_not_nil.
Qed.

Lemma stem_app a b : Py.mem dot a = false -> stem (a ++ "." ++ b) = a.
Proof.
  intros H. unfold stem. change (a ++ "." ++ b) with (a ++ String dot b).
  rewrite (split_segment _ _ _ H). reflexivity.
Qed.

Section LoadDataFacts.

Variable R : Type.
Implicit Types (listing : list (string * item R)) (d : Py.dict DataFrame).

Lemma store_sheets_keys sheets : forall d k,
  In k (Py.keys (store_sheets sheets d)) <->
  In k (Py.keys d) \/ In k (Py.keys sheets).
Proof.
  unfold store_sheets.
  induction sheets as [|[k' v'] sheets IH]; simpl; intros d k; [tauto|].
  rewrite IH, keys_set. intuition.
Qed.

Lemma load_item_keys name (it : item R) d d' k :
  load_item name it d = inr d' ->
  (In k (Py.keys d') <-> In k (Py.keys d) \/ In k (written_keys name it)).
Proof.
  unfold load_item, written_keys. destruct it as [|c x].
  - intros H. injection H as <-. simpl. tauto.
  - destruct (String.eqb (file_extension name) "csv").
    + destruct c as [e|df]; [discriminate|]. intros H. injection H as <-.
      rewrite keys_set. simpl. intuition.
    + destruct (String.eqb (file_extension name) "xls"
                || String.eqb (file_extension name) "xlsx")%bool.
      * destruct x as [e|sheets]; [discriminate|]. intros H.
        injection H as <-. apply store_sheets_keys.
      * intros H. injection H as <-. simpl. tauto.
Qed.

Lemma load_item_get_other name (it : item R) d d' k :
  load_item name it d = inr d' ->
  ~ In k (written_keys name it) ->
  Py.get k d' = Py.get k d.
Proof.
  unfold load_item, written_keys. destruct it as [|c x].
  - intros H _. injection H as <-. reflexivity.
  - destruct (String.eqb (file_extension name) "csv").
    + destruct c as [e|df]; [discriminate|]. intros H Hk. injection H as <-.
      apply get_set_other. simpl in Hk. intuition.
    + destruct (String.eqb (file_extension name) "xls"
                || String.eqb (file_extension name) "xlsx")%bool.
      * destruct x as [e|sheets]; [discriminate|]. intros H Hk.
        injection H as <-. unfold store_sheets. revert d.
        induction sheets as [|[k' v'] sheets IH]; simpl in *; intros d;
          [reflexivity|].
        rewrite IH by tauto. apply get_set_other. intuition.
      * intros H _. injection H as <-. reflexivity.
Qed.

Lemma load_data_app (l1 : list (string * item R)) : forall l2 d,
  load_data (l1 ++ l2)%list d =
  match load_data l1 d with
  | (Some e, d1) => (Some e, d1)
  | (None, d1) => load_data l2 d1
  end.
Proof.
  induction l1 as [|[name it] l1 IH]; simpl; intros l2 d; [reflexivity|].
  destruct (load_item name it d); [reflexivity | apply IH].
Qed.

Lemma load_data_get_other listing : forall d d' k,
  load_data listing d = (None, d') ->
  (forall name it, In (name, it) listing -> ~ In k (written_keys name it)) ->
  Py.get k d' = Py.get k d.
Proof.
  induction listing as [|[name it] listing IH]; simpl; intros d d' k H Hk.
  - injection H as <-. reflexivity.
  - destruct (load_item name it d) as [e|d1] eqn:Hi; [discriminate|].
    rewrite (IH d1 d' k H) by (intros n i Hin; apply Hk; auto).
    eapply load_item_get_other; [exact Hi|]. apply Hk. auto.
Qed.

(** X15.  When [load_data] goes through, the keys of [data_dict] are
    those it had plus, for each csv file, the part of its name before
    the first dot and, for each xls or xlsx file, its sheet names;
    folders and files with another extension add nothing. *)
Theorem load_data_keys listing : forall d d' k,
  load_data listing d = (None, d') ->
  (In k (Py.keys d') <->
   In k (Py.keys d) \/
   exists name it, In (name, it) listing /\ In k (written_keys name it)).
Proof.
  induction listing as [|[name it] listing IH]; simpl; intros d d' k H.
  - injection H as <-. split; [auto | intros [H|(n & i & [] & _)]; exact H].
  - destruct (load_item name it d) as [e|d1] eqn:Hi; [discriminate|].
    rewrite (IH d1 d' k H), (load_item_keys _ _ _ k Hi). split.
    + intros [[Hd|Hw]|(n & i & Hin & Hw)]; eauto 7.
    + intros [Hd|(n & i & [Heq|Hin] & Hw)]; eauto 7.
      injection Heq as <- <-. auto.
Qed.

(** X16.  When [load_data] goes through, a csv file that was read is
    found under the part of its name before the first dot, unless a
    later item of the listing assigned the same key. *)
Theorem load_data_lookup (pre post : list (string * item R))
        name df as_excel d d' :
  load_data (pre ++ (name, File (inr df) as_excel) :: post)%list d = (None, d') ->
  file_extension name = "csv" ->
  (forall n it, In (n, it) post -> ~ In (stem name) (written_keys n it)) ->
  Py.get (stem name) d' = Some df.
Proof.
  intros H Hext Hpost. rewrite load_data_app in H.
  destruct (load_data pre d) as [[e|] d1]; [discriminate|].
  simpl in H. unfold load_item in H. rewrite Hext in H. simpl in H.
  erewrite load_data_get_other; [|exact H|exact Hpost]. apply get_set_same.
Qed.

(** X17.  A file that cannot be read stops [load_data] with the
    reader's error: the tables read before it stay in [data_dict],
    the items after it are not read. *)
Theorem load_data_aborts (pre post : list (string * item R))
        name it d d1 e :
  load_data pre d = (None, d1) ->
  load_item name it d1 = inl e ->
  load_data (pre ++ (name, it) :: post)%list d = (Some e, d1).
Proof.
  intros Hpre Hit. rewrite load_data_app, Hpre. simpl. rewrite Hit.
  reflexivity.
Qed.

(** X18.  The extension is what follows the last dot and the table
    name what precedes the first one: a csv file whose name has
    further dots is stored under the part before the first dot, and
    a name without dot is its own extension and its own table
    name. *)
Theorem dots_in_file_names :
  (forall a b, file_extension (a ++ "." ++ b) = file_extension b) /\
  (forall a b, Py.mem dot a = false -> stem (a ++ "." ++ b) = a) /\
  (forall a, Py.mem dot a = false -> file_extension a = a /\ stem a = a) /\
  (forall a rest df (as_excel : R + Py.dict DataFrame) d,
     Py.mem dot a = false -> file_extension rest = "csv" ->
     load_item (a ++ "." ++ rest) (File (inr df) as_excel) d
     = inr (Py.set a df d)).
Proof.
  split; [exact file_extension_app|]. split; [exact stem_app|]. split.
  - intros a H. unfold file_extension, stem.
    rewrite (split_no_sep _ _ H). auto.
  - intros a rest df as_excel d Ha Hext. unfold load_item.
    rewrite file_extension_app, Hext, stem_app by exact Ha. reflexivity.
Qed.

End LoadDataFacts.

Lemma load_data_keys_witness :
  In "Housing" (Py.keys (snd (load_data folder []))).
Proof.
  apply (@load_data_keys unit folder [] (snd (load_data folder [])) "Housing").
  - vm_compute. reflexivity.
  - right. exists "book.xlsx", (File (inl tt) (inr [("Housing", ohio_revised)])).
    split; [simpl; auto 6 | vm_compute; auto].
Defined.

Lemma load_data_lookup_witness :
  Py.get (stem "Retail_Grocery.csv") (snd (load_data folder [])) = Some ohio.
Proof.
  apply (@load_data_lookup unit [] (tl folder) "Retail_Grocery.csv" ohio
           (inl tt) [] (snd (load_data folder []))).
  - vm_compute. reflexivity.
  - vm_compute. reflexivity.
  - intros n it [H|[H|[H|[]]]]; injection H as <- <-; vm_compute;
      intuition discriminate.
Defined.

Lemma load_data_aborts_witness :
  load_data folder_unreadable [] = (Some tt, [("Retail_Grocery", ohio)]).
Proof.
  apply (@load_data_aborts unit [("Retail_Grocery.csv", File (inr ohio) (inl tt))]
           [("Energy.csv", File (inr ohio) (inl tt))]
           "Housing.csv" (File (inl tt) (inl tt)) []
           [("Retail_Grocery", ohio)] tt).
  - vm_compute. reflexivity.
  - vm_compute. reflexivity.
Defined.

Lemma dots_in_file_names_witness :
  load_item "Retail.2020.csv" (File (inr ohio) (inl tt)) []
  = inr [("Retail", ohio)].
Proof.
  destruct (dots_in_file_names unit) as (_ & _ & _ & H).
  apply (H "Retail" "2020.csv" ohio (inl tt) []); reflexivity.
Defined.

(* ================================================================== *)
(** ** Reading the configuration *)

(** X19.  [load_from_json] goes through exactly on a document that
    is a dict with a FOLDER_PATH and a NEO4J_CONSTANTS list whose
    first element is a dict with the three connection keys; the four
    attributes are then those values, and whatever else the document
    or the list holds is ignored. *)
Theorem load_from_json_accepts (data : json) (cls : Constants) :
  (fst (load_from_json data cls) = None ->
   exists d c more uri user password folder,
     data = JDict d /\
     Py.get "NEO4J_CONSTANTS" d = Some (JList (JDict c :: more)) /\
     Py.get "NEO4J_URI" c = Some uri /\
     Py.get "NEO4J_USERNAME" c = Some user /\
     Py.get "NEO4J_PASSWORD" c = Some password /\
     Py.get "FOLDER_PATH" d = Some folder) /\
  (forall d c more uri user password folder,
     data = JDict d ->
     Py.get "NEO4J_CONSTANTS" d = Some (JList (JDict c :: more)) ->
     Py.get "NEO4J_URI" c = Some uri ->
     Py.get "NEO4J_USERNAME" c = Some user ->
     Py.get "NEO4J_PASSWORD" c = Some password ->
     Py.get "FOLDER_PATH" d = Some folder ->
     load_from_json data cls
     = (None, {| NEO4J_URI := uri; NEO4J_USERNAME := user;
                 NEO4J_PASSWORD := password; FOLDER_PATH := folder |})).
Proof.
  split.
  - unfold load_from_json, getitem_key.
    destruct data as [| | | | | |d]; try discriminate.
    destruct (Py.get "NEO4J_CONSTANTS" d) as [x|] eqn:H1; [|discriminate].
    unfold getitem_0.
    destruct x as [| | | |s|[|n more]|c0]; try discriminate;
      [destruct s; discriminate|].
    destruct n as [| | | | | |c]; try discriminate.
    destruct (Py.get "NEO4J_URI" c) as [uri|] eqn:H2; [|discriminate].
    destruct (Py.get "NEO4J_USERNAME" c) as [user|] eqn:H3; [|discriminate].
    destruct (Py.get "NEO4J_PASSWORD" c) as [password|] eqn:H4; [|discriminate].
    destruct (Py.get "FOLDER_PATH" d) as [folder|] eqn:H5; [|discriminate].
    intros _. exists d, c, more, uri, user, password, folder. auto 10.
  - intros d c more uri user password folder -> H1 H2 H3 H4 H5.
    unfold load_from_json, getitem_key, getitem_0.
    rewrite H1, H2, H3, H4, H5. reflexivity.
Qed.

Lemma load_from_json_accepts_witness :
  load_from_json config unset
  = (None, {| NEO4J_URI := JStr "bolt://localhost:7687";
              NEO4J_USERNAME := JStr "neo4j";
              NEO4J_PASSWORD := JStr "secret";
              FOLDER_PATH := JStr "data" |}).
Proof.
  destruct (load_from_json_accepts config unset) as [_ H].
  eapply H; reflexivity.
Defined.

(** X20.  [load_from_json] assigns as it reads: when it raises,
    FOLDER_PATH is as it was; and a document that only lacks
    FOLDER_PATH raises the key error for it with the three
    connection attributes already replaced. *)
Theorem load_from_json_failure (data : json) (cls : Constants) :
  (forall e, fst (load_from_json data cls) = Some e ->
     FOLDER_PATH (snd (load_from_json data cls)) = FOLDER_PATH cls) /\
  (forall d c more uri user password,
     data = JDict d ->
     Py.get "NEO4J_CONSTANTS" d = Some (JList (JDict c :: more)) ->
     Py.get "NEO4J_URI" c = Some uri ->
     Py.get "NEO4J_USERNAME" c = Some user ->
     Py.get "NEO4J_PASSWORD" c = Some password ->
     Py.get "FOLDER_PATH" d = None ->
     load_from_json data cls
     = (Some (PyKeyError (JStr "FOLDER_PATH")),
        {| NEO4J_URI := uri; NEO4J_USERNAME := user;
           NEO4J_PASSWORD := password; FOLDER_PATH := FOLDER_PATH cls |})).
Proof.
  split.
  - intros e. unfold load_from_json.
    destruct (getitem_key data "NEO4J_CONSTANTS") as [|l]; [reflexivity|].
    destruct (getitem_0 l) as [|n]; [reflexivity|].
    destruct (getitem_key n "NEO4J_URI"); [reflexivity|].
    destruct (getitem_key n "NEO4J_USERNAME"); [reflexivity|].
    destruct (getitem_key n "NEO4J_PASSWORD"); [reflexivity|].
    destruct (getitem_key data "FOLDER_PATH"); [reflexivity|discriminate].
  - intros d c more uri user password -> H1 H2 H3 H4 H5.
    unfold load_from_json, getitem_key, getitem_0.
    rewrite H1, H2, H3, H4, H5. reflexivity.
Qed.

Lemma load_from_json_failure_witness :
  load_from_json config_no_folder unset
  = (Some (PyKeyError (JStr "FOLDER_PATH")),
     {| NEO4J_URI := JStr "bolt://localhost:7687";
        NEO4J_USERNAME := JStr "neo4j";
        NEO4J_PASSWORD := JStr "secret";
        FOLDER_PATH := JNull |}).
Proof.
  destruct (load_from_json_failure config_no_folder unset) as [_ H].
  eapply (H _ _ [] _ _ _); reflexivity.
Defined.

(* ================================================================== *)
(** ** The script as a whole *)

Section ScriptFacts.

Variable E : Type.
Variable run : string -> list row -> graph -> E + graph.
Variable R : Type.
Variable read_json : string -> R + json.
Variable listdir : json -> R + list (string * item R).
Variable driver : json -> json -> json -> option R.

(** X21.  Whatever the world outside does, the script ends either
    with no driver built and none closed, or with one driver built
    and closed once: it never leaves a driver open and never closes
    one it did not build. *)
Theorem script_closes_what_it_opens (argv : list string) (p : process) :
  let p' := snd (script run read_json listdir driver argv p) in
  (opened p' = opened p /\ closed (outside p') = closed (outside p)) \/
  (opened p' = S (opened p) /\
   closed (outside p') = S (closed (outside p))).
Proof.
  unfold script.
  destruct (Nat.ltb (List.length argv) 2); [left; auto|].
  destruct (read_json (nth 1 argv EmptyString)) as [e|data]; [left; auto|].
  destruct (load_from_json data (constants p)) as [[e|] cls]; [left; auto|].
  destruct (listdir (FOLDER_PATH cls)) as [e|listing]; [left; auto|].
  destruct (load_data listing []) as [[e|] data_dict]; [left; auto|].
  destruct (driver _ _ _); [left; auto|].
  rewrite main_after_loop. right. simpl. auto.
Qed.

(** X22.  With fewer than two arguments the script exits with status
    1 and touches nothing.  Whenever it ends for a reason other than
    the loop over the tables (no argument, configuration unreadable
    or incomplete, folder or file unreadable, driver not built), the
    store is as it was and no driver was built; otherwise one driver
    was built. *)
Theorem script_aborts_before_driver (argv : list string) (p : process) :
  (List.length argv < 2 ->
   script run read_json listdir driver argv p = (Some (SystemExit 1), p)) /\
  match fst (script run read_json listdir driver argv p) with
  | Some (LoopError _) | None =>
      opened (snd (script run read_json listdir driver argv p))
      = S (opened p)
  | Some _ =>
      opened (snd (script run read_json listdir driver argv p)) = opened p /\
      outside (snd (script run read_json listdir driver argv p)) = outside p
  end.
Proof.
  split.
  - intros H. unfold script. apply Nat.ltb_lt in H. rewrite H. reflexivity.
  - unfold script.
    destruct (Nat.ltb (List.length argv) 2); [simpl; auto|].
    destruct (read_json (nth 1 argv EmptyString)) as [e|data]; [simpl; auto|].
    destruct (load_from_json data (constants p)) as [[e|] cls]; [simpl; auto|].
    destruct (listdir (FOLDER_PATH cls)) as [e|listing]; [simpl; auto|].
    destruct (load_data listing []) as [[e|] data_dict]; [simpl; auto|].
    destruct (driver _ _ _); [simpl; auto|].
    destruct (main run data_dict (outside p)) as [[e|u] w]; reflexivity.
Qed.

End ScriptFacts.

Lemma script_aborts_before_driver_witness :
  script_here ["graph_generator.py"] start = (Some (SystemExit 1), start).
Proof.
  destruct (script_aborts_before_driver neo4j_run
              (fun _ => inr config) (fun _ => inr folder)
              (fun _ _ _ => @None unit) ["graph_generator.py"] start)
    as [H _].
  apply H. simpl. lia.
Defined.

(* ================================================================== *)
(** ** The table dict as an invariant *)

Section DataDictFacts.

Variable R : Type.

Lemma load_item_invariant name (it : item R) d d' :
  load_item name it d = inr d' ->
  (NoDup (Py.keys d) -> NoDup (Py.keys d')) /\
  (forall k, In k (Py.keys d) -> In k (Py.keys d')).
Proof.
  intros H. split.
  - unfold load_item in H. destruct it as [|c x].
    + injection H as <-. auto.
    + destruct (String.eqb (file_extension name) "csv").
      * destruct c as [e|df]; [discriminate|]. injection H as <-.
        apply keys_set_NoDup.
      * destruct (String.eqb (file_extension name) "xls"
                  || String.eqb (file_extension name) "xlsx")%bool.
        -- destruct x as [e|sheets]; [discriminate|]. injection H as <-.
           unfold store_sheets. revert d.
           induction sheets as [|[k v] sheets IH]; simpl; intros d Hd;
             [exact Hd|].
           apply IH, keys_set_NoDup, Hd.
        -- injection H as <-. auto.
  - intros k Hk. apply (load_item_keys _ _ _ k H). auto.
Qed.

(** X23.  However [load_data] ends, the dict it leaves has no key
    twice if it had none twice before, and still has every key it
    had: tables are added or replaced, never removed. *)
Theorem load_data_invariant (listing : list (string * item R)) :
  forall d : Py.dict DataFrame,
    (NoDup (Py.keys d) -> NoDup (Py.keys (snd (load_data listing d)))) /\
    (forall k, In k (Py.keys d) ->
               In k (Py.keys (snd (load_data listing d)))).
Proof.
  induction listing as [|[name it] listing IH]; simpl; intros d; [auto|].
  destruct (load_item name it d) as [e|d1] eqn:Hi; [simpl; auto|].
  destruct (load_item_invariant _ _ _ Hi) as [Hn Hk].
  destruct (IH d1) as [Hn1 Hk1]. split; auto.
Qed.

End DataDictFacts.

Lemma load_data_invariant_witness :
  NoDup (Py.keys (snd (load_data folder [("Housing", ohio)]))) /\
  In "Housing" (Py.keys (snd (load_data folder [("Housing", ohio)]))).
Proof.
  destruct (load_data_invariant folder [("Housing", ohio)]) as [Hn Hk].
  split.
  - apply Hn. repeat constructor. intros [].
  - apply Hk. simpl. auto.
Defined.
